(** * KernelSU mount-propagation hook: a shallow embedding

    The kernel module installs a kretprobe on [attach_recursive_mnt].
    Its entry handler may clear [MNT_SHARED] on the destination mount and
    its return handler restores the flags saved in the per-instance data
    area.  Three revisions of [kernel/mount_hook.c] are embedded here:

    - [Canonical]: [src/kernel/mount_hook.c] (pause flag, destination
      pointer validated);
    - [Bootstrap]: [src/unnamed/part_000] (zygote latch and captured
      modules device name, both pointers validated);
    - [Legacy]:    [src/unnamed/part_001] (pause flag, no pointer
      validation, symbol looked up through kallsyms).

    Kernel memory is a finite map from addresses to mount records; a
    handler that dereferences an address holding no mount (in particular
    the null address) faults, which is the [None] result.  All handlers
    are modelled without [CONFIG_KSU_DEBUG]: the debug build only adds
    log lines. *)

From Stdlib Require Import ZArith Lia Bool.
From stdpp Require Import base option gmap strings.

Local Open Scope Z_scope.

(** ** Kernel data borrowed by the hook *)

(** Modelled from the spec: the "shared propagation" bit of a mount's
    flags.  [MNT_SHARED] comes from [include/linux/mount.h], which is not
    part of the module's sources; the kernel defines it as the single
    bit [0x1000]. *)
Definition MNT_SHARED : Z := 0x1000.

(** Modelled from the spec: the status code behind "SymbolNotFound".
    [ENOENT] comes from the kernel's errno headers, where it is [2]. *)
Definition ENOENT : Z := 2.

(** The null pointer. *)
Definition NULL : Z := 0.

(** The part of [struct mount] the hook looks at: [mnt.mnt_flags] (a C
    [int]) and [mnt_devname] (a [const char *], [None] when null; the
    string is the text before the terminating NUL). *)
Record mount := Mount {
  mnt_flags : Z;
  mnt_devname : option string
}.

(** Dereferencing a [struct mount *]. *)
Definition deref (h : gmap Z mount) (p : Z) : option mount :=
  if decide (p = NULL) then None else h !! p.

(** [p->mnt.mnt_flags = f] on a mount [m] already read from [p]. *)
Definition store_flags (p : Z) (m : mount) (f : Z) (h : gmap Z mount)
  : gmap Z mount :=
  <[p := Mount f (mnt_devname m)]> h.

(** The two pointer arguments of [attach_recursive_mnt] as the probe
    finds them in the saved registers. *)
Record pt_regs := PtRegs {
  PT_REGS_PARM1 : Z;
  PT_REGS_PARM2 : Z
}.

(** [struct ksu_attach_mnt_state], the kretprobe instance's data area. *)
Record ksu_attach_mnt_state := AttachState {
  dest_mnt : Z;
  original_flags : Z;
  spoofed : bool
}.

(** [state->spoofed = b]. *)
Definition set_spoofed (b : bool) (st : ksu_attach_mnt_state)
  : ksu_attach_mnt_state :=
  {| dest_mnt := dest_mnt st;
     original_flags := original_flags st;
     spoofed := b |}.

(** [flags & MNT_SHARED] is non-zero. *)
Definition is_shared (flags : Z) : bool :=
  negb (Z.land flags MNT_SHARED =? 0).

(** [flags & ~MNT_SHARED]. *)
Definition clear_shared (flags : Z) : Z :=
  Z.land flags (Z.lnot MNT_SHARED).

(** The range of a C [int]. *)
Definition int_range (z : Z) : Prop := - 2 ^ 31 <= z < 2 ^ 31.

(** ** The current revision: [src/kernel/mount_hook.c] *)

Module Canonical.

(** The module's global [ksu_mount_propagation_paused] next to the
    kernel's mounts. *)
Record kernel := Kernel {
  ksu_mount_propagation_paused : Z;
  mounts : gmap Z mount
}.

Definition atomic_set_paused (v : Z) (k : kernel) : kernel :=
  {| ksu_mount_propagation_paused := v; mounts := mounts k |}.

Definition set_mounts (h : gmap Z mount) (k : kernel) : kernel :=
  {| ksu_mount_propagation_paused := ksu_mount_propagation_paused k;
     mounts := h |}.

(** Entry handler.  The result is the handler's return value, the data
    area and the kernel afterwards. *)
Definition ksu_attach_recursive_mnt_entry
    (k : kernel) (st : ksu_attach_mnt_state) (regs : pt_regs)
  : option (Z * ksu_attach_mnt_state * kernel) :=
  let st := set_spoofed false st in
  if ksu_mount_propagation_paused k =? 0 then Some (0, st, k)
  else
    let dest := PT_REGS_PARM2 regs in
    if dest =? NULL then Some (0, st, k)
    else
      m ← deref (mounts k) dest;
      if negb (is_shared (mnt_flags m)) then Some (0, st, k)
      else
        let st' := {| dest_mnt := dest;
                      original_flags := mnt_flags m;
                      spoofed := true |} in
        Some (0, st',
              set_mounts
                (store_flags dest m (clear_shared (mnt_flags m)) (mounts k))
                k).

(** Return handler. *)
Definition ksu_attach_recursive_mnt_ret
    (k : kernel) (st : ksu_attach_mnt_state) : option (Z * kernel) :=
  if negb (spoofed st) then Some (0, k)
  else
    m ← deref (mounts k) (dest_mnt st);
    Some (0, set_mounts
               (store_flags (dest_mnt st) m (original_flags st) (mounts k))
               k).

Definition ksu_pause_mount_propagation (pause : bool) (k : kernel)
  : kernel :=
  if pause then atomic_set_paused 1 k else atomic_set_paused 0 k.

(** [ksu_mount_hook_init].  [have_kprobes] is [CONFIG_KPROBES];
    [register_kretprobe] is the status the kernel's registration
    returns, taken as an input. *)
Definition ksu_mount_hook_init (have_kprobes : bool)
    (register_kretprobe : Z) : Z :=
  if have_kprobes then
    let ret := register_kretprobe in
    if ret <? 0 then ret else 0
  else 0.

(** The flags word of the mount at [p], if there is one. *)
Definition flags_at (k : kernel) (p : Z) : option Z :=
  mnt_flags <$> mounts k !! p.

(** *** The probe facility around the handlers *)

(** [.maxactive] of [attach_recursive_mnt_krp]. *)
Definition maxactive : nat := 64.

Record system := System {
  sys_kernel : kernel;
  instances : gmap nat ksu_attach_mnt_state;
  nmissed : nat
}.

Inductive event :=
| EvEntry (i : nat) (stale : ksu_attach_mnt_state) (regs : pt_regs)
| EvMissed (regs : pt_regs)
| EvRet (i : nat)
| EvPause (pause : bool)
| EvWrite (p : Z) (flags : Z).

(** Modelled from the spec: the kretprobe facility is kernel code, not
    part of the module.  It gives every running call of the hooked
    function its own instance (at most [maxactive] at a time), runs the
    entry handler before the body and the return handler after it, and
    counts a call as missed when no instance is free.  Handlers of
    different calls interleave with each other, with the control
    surface and with any other kernel code that writes a mount's flags
    (the hooked function's body included); one run of a handler is one
    step.

    [step s e] is one event; [None] means the event cannot happen in
    this state (or a handler faulted).  [stale] is what the instance's
    data area held when it was handed out: the facility does not clear
    it.  An entry handler returning non-zero would give its instance
    back at once. *)
Definition step (s : system) (e : event) : option system :=
  match e with
  | EvEntry i stale regs =>
      match instances s !! i with
      | Some _ => None
      | None =>
          if decide (size (instances s) < maxactive)%nat then
            '(r, st, k) ← ksu_attach_recursive_mnt_entry (sys_kernel s) stale regs;
            if r =? 0
            then Some (System k (<[i := st]> (instances s)) (nmissed s))
            else Some (System k (instances s) (nmissed s))
          else None
      end
  | EvMissed regs =>
      if decide (size (instances s) < maxactive)%nat then None
      else Some (System (sys_kernel s) (instances s) (S (nmissed s)))
  | EvRet i =>
      st ← instances s !! i;
      '(_, k) ← ksu_attach_recursive_mnt_ret (sys_kernel s) st;
      Some (System k (delete i (instances s)) (nmissed s))
  | EvPause pause =>
      Some (System (ksu_pause_mount_propagation pause (sys_kernel s))
                   (instances s) (nmissed s))
  | EvWrite p flags =>
      m ← deref (mounts (sys_kernel s)) p;
      Some (System (set_mounts (store_flags p m flags (mounts (sys_kernel s)))
                               (sys_kernel s))
                   (instances s) (nmissed s))
  end.

Fixpoint run (s : system) (es : list event) : option system :=
  match es with
  | [] => Some s
  | e :: es' => s' ← step s e; run s' es'
  end.

Definition is_ret_of (i : nat) (e : event) : bool :=
  match e with
  | EvRet j => bool_decide (i = j)
  | _ => false
  end.

End Canonical.

(** ** The bootstrap revision: [src/unnamed/part_000] *)

(** Modelled from the spec: the kernel's [strcmp] ("the source device
    matches the captured name"), from [lib/string.c], on the text of two
    NUL-terminated strings. *)
Fixpoint strcmp (cs ct : string) : Z :=
  match cs, ct with
  | EmptyString, EmptyString => 0
  | EmptyString, String _ _ => -1
  | String _ _, EmptyString => 1
  | String c1 cs', String c2 ct' =>
      if decide (c1 = c2) then strcmp cs' ct'
      else if (Ascii.nat_of_ascii c1 <? Ascii.nat_of_ascii c2)%nat then -1 else 1
  end.

(** Modelled from the spec: the kernel's [strncmp] ("matches a
    recognizable pattern"), comparing at most [count] characters. *)
Fixpoint strncmp (cs ct : string) (count : nat) {struct count} : Z :=
  match count with
  | O => 0
  | S n =>
      match cs, ct with
      | EmptyString, EmptyString => 0
      | EmptyString, String _ _ => -1
      | String _ _, EmptyString => 1
      | String c1 cs', String c2 ct' =>
          if decide (c1 = c2) then strncmp cs' ct' n
          else if (Ascii.nat_of_ascii c1 <? Ascii.nat_of_ascii c2)%nat then -1 else 1
      end
  end.

(** The text left in a zeroed buffer by [strncpy (buf, src, n)] followed
    by [buf[n] = 0]: the first [n] characters of [src]. *)
Fixpoint strncpy (src : string) (n : nat) {struct n} : string :=
  match n, src with
  | S n', String c src' => String c (strncpy src' n')
  | _, _ => EmptyString
  end.

Module Bootstrap.

Record kernel := Kernel {
  ksu_zygote_started : Z;
  ksu_modules_devname_initialized : Z;
  ksu_modules_devname : string;
  mounts : gmap Z mount
}.

Definition set_mounts (h : gmap Z mount) (k : kernel) : kernel :=
  {| ksu_zygote_started := ksu_zygote_started k;
     ksu_modules_devname_initialized := ksu_modules_devname_initialized k;
     ksu_modules_devname := ksu_modules_devname k;
     mounts := h |}.

(** Step 1 of the entry handler: capture the modules device name once.
    The source mount is read only while no name has been captured. *)
Definition capture_devname (source : Z) (k : kernel) : option kernel :=
  if ksu_modules_devname_initialized k =? 0 then
    src ← deref (mounts k) source;
    match mnt_devname src with
    | Some name =>
        if strncmp name "/dev/block/loop" 15 =? 0 then
          Some {| ksu_zygote_started := ksu_zygote_started k;
                  ksu_modules_devname_initialized := 1;
                  ksu_modules_devname := strncpy name 255;
                  mounts := mounts k |}
        else Some k
    | None => Some k
    end
  else Some k.

(** Step 2 of the entry handler: the condition for skipping the spoof.
    The source mount is read only when zygote has started and a name has
    been captured. *)
Definition skip_spoof (source : Z) (k : kernel) : option bool :=
  if ksu_zygote_started k =? 0 then Some false
  else if ksu_modules_devname_initialized k =? 0 then Some true
  else
    src ← deref (mounts k) source;
    match mnt_devname src with
    | Some name => Some (negb (strcmp name (ksu_modules_devname k) =? 0))
    | None => Some false
    end.

Definition ksu_attach_recursive_mnt_entry
    (k : kernel) (st : ksu_attach_mnt_state) (regs : pt_regs)
  : option (Z * ksu_attach_mnt_state * kernel) :=
  let source := PT_REGS_PARM1 regs in
  let dest := PT_REGS_PARM2 regs in
  let st := set_spoofed false st in
  if (source =? NULL) || (dest =? NULL) then Some (0, st, k)
  else
    k ← capture_devname source k;
    skip ← skip_spoof source k;
    if skip : bool then Some (0, st, k)
    else
      m ← deref (mounts k) dest;
      if negb (is_shared (mnt_flags m)) then Some (0, st, k)
      else
        let st' := {| dest_mnt := dest;
                      original_flags := mnt_flags m;
                      spoofed := true |} in
        Some (0, st',
              set_mounts
                (store_flags dest m (clear_shared (mnt_flags m)) (mounts k))
                k).

Definition ksu_attach_recursive_mnt_ret
    (k : kernel) (st : ksu_attach_mnt_state) : option (Z * kernel) :=
  if negb (spoofed st) then Some (0, k)
  else
    m ← deref (mounts k) (dest_mnt st);
    Some (0, set_mounts
               (store_flags (dest_mnt st) m (original_flags st) (mounts k))
               k).

Definition ksu_set_zygote_started (k : kernel) : kernel :=
  {| ksu_zygote_started := 1;
     ksu_modules_devname_initialized := ksu_modules_devname_initialized k;
     ksu_modules_devname := ksu_modules_devname k;
     mounts := mounts k |}.

Definition flags_at (k : kernel) (p : Z) : option Z :=
  mnt_flags <$> mounts k !! p.

End Bootstrap.

(** ** The first revision: [src/unnamed/part_001] *)

Module Legacy.

Record kernel := Kernel {
  ksu_mount_propagation_paused : Z;
  mounts : gmap Z mount
}.

Definition set_mounts (h : gmap Z mount) (k : kernel) : kernel :=
  {| ksu_mount_propagation_paused := ksu_mount_propagation_paused k;
     mounts := h |}.

Section Handlers.

(** [PT_REAL_REGS] is a macro of [arch.h], which is not part of these
    sources: it is taken as a parameter. *)
Variable PT_REAL_REGS : pt_regs → pt_regs.

(** This revision reads the destination's flags without checking the
    pointer. *)
Definition ksu_attach_recursive_mnt_entry
    (k : kernel) (st : ksu_attach_mnt_state) (regs : pt_regs)
  : option (Z * ksu_attach_mnt_state * kernel) :=
  let real_regs := PT_REAL_REGS regs in
  let st := set_spoofed false st in
  if ksu_mount_propagation_paused k =? 0 then Some (0, st, k)
  else
    let dest := PT_REGS_PARM2 real_regs in
    m ← deref (mounts k) dest;
    if negb (is_shared (mnt_flags m)) then Some (0, st, k)
    else
      let st' := {| dest_mnt := dest;
                    original_flags := mnt_flags m;
                    spoofed := true |} in
      Some (0, st',
            set_mounts
              (store_flags dest m (clear_shared (mnt_flags m)) (mounts k))
              k).

End Handlers.

Definition ksu_attach_recursive_mnt_ret
    (k : kernel) (st : ksu_attach_mnt_state) : option (Z * kernel) :=
  if negb (spoofed st) then Some (0, k)
  else
    m ← deref (mounts k) (dest_mnt st);
    Some (0, set_mounts
               (store_flags (dest_mnt st) m (original_flags st) (mounts k))
               k).

(** [ksu_mount_hook_init].  [have_kprobes] is [HAVE_KPROBES];
    [kallsyms_lookup_name] is the address the lookup of
    ["attach_recursive_mnt"] returns (null when the symbol is unknown)
    and [register_kretprobe] the status of the registration, both taken
    as inputs. *)
Definition ksu_mount_hook_init (have_kprobes : bool)
    (kallsyms_lookup_name : Z) (register_kretprobe : Z) : Z :=
  if have_kprobes then
    let attach_recursive_mnt_fp := kallsyms_lookup_name in
    if attach_recursive_mnt_fp =? NULL then - ENOENT
    else
      let ret := register_kretprobe in
      if ret <? 0 then ret else 0
  else 0.

Definition flags_at (k : kernel) (p : Z) : option Z :=
  mnt_flags <$> mounts k !! p.

End Legacy.

(** ** Notions used to state properties of runs and revisions *)



(** Every spoofed instance in flight points to a mount. *)
Definition instances_mounted (s : Canonical.system) : Prop :=
  ∀ i st, Canonical.instances s !! i = Some st → spoofed st = true →
          is_Some (deref (Canonical.mounts (Canonical.sys_kernel s))
                     (dest_mnt st)).


(** Every mount's flags word is a C [int]. *)
Definition int_flags (h : gmap Z mount) : Prop :=
  ∀ p m, h !! p = Some m → int_range (mnt_flags m).

(** The captured modules device name, once there is one, starts with
    the loop-device prefix and fits the 256-byte buffer. *)
Definition devname_wf (k : Bootstrap.kernel) : Prop :=
  Bootstrap.ksu_modules_devname_initialized k ≠ 0 →
  (∃ rest, Bootstrap.ksu_modules_devname k
           = ("/dev/block/loop" +:+ rest)%string) ∧
  (String.length (Bootstrap.ksu_modules_devname k) <= 255)%nat.

(** * Properties *)

(** ** Flag words *)

Lemma MNT_SHARED_bit : MNT_SHARED = 2 ^ 12.
Proof. reflexivity. Qed.

Lemma land_single_bit (f n : Z) :
  0 <= n → Z.land f (2 ^ n) = if Z.testbit f n then 2 ^ n else 0.
Proof.
  intros Hn. apply Z.bits_inj'. intros i Hi.
  rewrite Z.land_spec, Z.pow2_bits_eqb by assumption.
  destruct (Z.eqb_spec n i) as [->|Hne].
  - destruct (Z.testbit f i) eqn:Hf; simpl.
    + rewrite Z.pow2_bits_eqb by assumption. now rewrite Z.eqb_refl.
    + now rewrite Z.bits_0.
  - rewrite andb_false_r. destruct (Z.testbit f n).
    + rewrite Z.pow2_bits_eqb by assumption.
      symmetry. now apply Z.eqb_neq.
    + now rewrite Z.bits_0.
Qed.

Lemma is_shared_testbit (f : Z) : is_shared f = Z.testbit f 12.
Proof.
  unfold is_shared. rewrite MNT_SHARED_bit, land_single_bit by lia.
  now destruct (Z.testbit f 12).
Qed.

Lemma clear_shared_testbit (f i : Z) :
  Z.testbit (clear_shared f) i =
  if decide (i = 12) then false else Z.testbit f i.
Proof.
  destruct (Z.lt_ge_cases i 0) as [Hneg|Hpos].
  - rewrite !Z.testbit_neg_r by assumption. now case_decide.
  - unfold clear_shared. rewrite Z.land_spec, Z.lnot_spec by assumption.
    rewrite MNT_SHARED_bit, Z.pow2_bits_eqb by lia.
    case_decide as Hi.
    + subst i. simpl. apply andb_false_r.
    + assert ((12 =? i) = false) as -> by (apply Z.eqb_neq; congruence).
      apply andb_true_r.
Qed.


(** The bits from 31 up are not touched, so an [int] stays an [int]:
    the handlers never leave the range of the C type. *)
Lemma int_range_shiftr (f : Z) :
  int_range f ↔ -1 <= Z.shiftr f 31 <= 0.
Proof.
  unfold int_range. rewrite Z.shiftr_div_pow2 by lia.
  pose proof (Z.div_mod f (2 ^ 31) ltac:(lia)) as Hdm.
  pose proof (Z.mod_pos_bound f (2 ^ 31) ltac:(lia)) as Hm.
  lia.
Qed.

Lemma clear_shared_int_range (f : Z) :
  int_range f → int_range (clear_shared f).
Proof.
  rewrite !int_range_shiftr.
  assert (Z.shiftr (clear_shared f) 31 = Z.shiftr f 31) as ->; [|done].
  apply Z.bits_inj'. intros i Hi.
  rewrite !Z.shiftr_spec, clear_shared_testbit by assumption.
  case_decide; [lia|done].
Qed.

(** ** Memory *)

Lemma deref_Some (h : gmap Z mount) (p : Z) (m : mount) :
  deref h p = Some m ↔ p ≠ NULL ∧ h !! p = Some m.
Proof.
  unfold deref. case_decide as Hp; split.
  - done.
  - by intros [].
  - by intros ->.
  - by intros [_ ->].
Qed.

Lemma deref_store_flags (h : gmap Z mount) (p q : Z) (m : mount) (f : Z) :
  is_Some (deref h q) → is_Some (deref (store_flags p m f h) q).
Proof.
  unfold deref, store_flags. case_decide; [done|].
  intros Hq. destruct (decide (p = q)) as [->|Hne].
  - rewrite lookup_insert_eq. eauto.
  - by rewrite lookup_insert_ne.
Qed.

Lemma lookup_store_flags (h : gmap Z mount) (p : Z) (m : mount) (f : Z) :
  mnt_flags <$> store_flags p m f h !! p = Some f.
Proof. unfold store_flags. by rewrite lookup_insert_eq. Qed.

(** ** The handlers of the current revision *)

(** Every path of the entry handler returns 0 and is one of two kinds:
    nothing but [spoofed = false] was written, or the spoof was made. *)
Lemma canonical_entry_cases k st regs r st' k' :
  Canonical.ksu_attach_recursive_mnt_entry k st regs = Some (r, st', k') →
  r = 0 ∧
  ((st' = set_spoofed false st ∧ k' = k) ∨
   (∃ m, Canonical.ksu_mount_propagation_paused k ≠ 0 ∧
         deref (Canonical.mounts k) (PT_REGS_PARM2 regs) = Some m ∧
         is_shared (mnt_flags m) = true ∧
         st' = AttachState (PT_REGS_PARM2 regs) (mnt_flags m) true ∧
         k' = Canonical.set_mounts
                (store_flags (PT_REGS_PARM2 regs) m
                   (clear_shared (mnt_flags m)) (Canonical.mounts k)) k)).
Proof.
  unfold Canonical.ksu_attach_recursive_mnt_entry.
  destruct (Z.eqb_spec (Canonical.ksu_mount_propagation_paused k) 0)
    as [|Hp]; [naive_solver|].
  destruct (Z.eqb_spec (PT_REGS_PARM2 regs) NULL); [naive_solver|].
  destruct (deref _ _) as [m|] eqn:Hm; simpl; [|done].
  destruct (is_shared (mnt_flags m)) eqn:Hs; simpl; [|naive_solver].
  intros [= <- <- <-]. split; [done|]. right. by exists m.
Qed.

Lemma canonical_ret_not_spoofed k st :
  spoofed st = false →
  Canonical.ksu_attach_recursive_mnt_ret k st = Some (0, k).
Proof. unfold Canonical.ksu_attach_recursive_mnt_ret. by intros ->. Qed.

(** The restoration: whatever the kernel looks like when the return
    handler runs, a spoofed instance whose destination is still mounted
    gets the saved word written back. *)
Lemma canonical_ret_restores k st :
  spoofed st = true →
  is_Some (deref (Canonical.mounts k) (dest_mnt st)) →
  ∃ k', Canonical.ksu_attach_recursive_mnt_ret k st = Some (0, k') ∧
        Canonical.flags_at k' (dest_mnt st) = Some (original_flags st) ∧
        Canonical.ksu_mount_propagation_paused k' =
          Canonical.ksu_mount_propagation_paused k ∧
        ∀ q, q ≠ dest_mnt st →
             Canonical.mounts k' !! q = Canonical.mounts k !! q.
Proof.
  intros Hs [m Hm]. unfold Canonical.ksu_attach_recursive_mnt_ret.
  rewrite Hs, Hm. simpl. eexists. split; [done|].
  unfold Canonical.flags_at. simpl. rewrite lookup_store_flags.
  repeat split. intros q Hq. unfold store_flags. by rewrite lookup_insert_ne.
Qed.

(** C4.  When the pause flag reads 0 at entry the mechanism writes no
    mount flags at all: the entry handler leaves the kernel as it found
    it (shared destination or not) and only marks the instance as not
    spoofed, so the return handler, whatever the body did meanwhile,
    leaves the kernel as it finds it.  The first revision behaves the
    same for any reading of [PT_REAL_REGS]. *)
Theorem inactive_feature_leaves_flags
    (k : Canonical.kernel) (k0 : Legacy.kernel)
    (st : ksu_attach_mnt_state) (regs : pt_regs) :
  Canonical.ksu_mount_propagation_paused k = 0 →
  Legacy.ksu_mount_propagation_paused k0 = 0 →
  (Canonical.ksu_attach_recursive_mnt_entry k st regs
     = Some (0, set_spoofed false st, k) ∧
   ∀ k2, Canonical.ksu_attach_recursive_mnt_ret k2 (set_spoofed false st)
           = Some (0, k2)) ∧
  (∀ real, Legacy.ksu_attach_recursive_mnt_entry real k0 st regs
             = Some (0, set_spoofed false st, k0)) ∧
  (∀ k2, Legacy.ksu_attach_recursive_mnt_ret k2 (set_spoofed false st)
           = Some (0, k2)).
Proof.
  intros Hp Hp0. split; [split|split].
  - unfold Canonical.ksu_attach_recursive_mnt_entry. by rewrite Hp.
  - intros k2. by apply canonical_ret_not_spoofed.
  - intros real. unfold Legacy.ksu_attach_recursive_mnt_entry. by rewrite Hp0.
  - done.
Qed.

Lemma inactive_feature_leaves_flags_witness :
  let k := Canonical.Kernel 0 {[ 100 := Mount (Z.lor MNT_SHARED 0x10) None ]} in
  let k0 := Legacy.Kernel 0 {[ 100 := Mount (Z.lor MNT_SHARED 0x10) None ]} in
  let st := AttachState 7 9 true in
  let regs := PtRegs 200 100 in
  (Canonical.ksu_attach_recursive_mnt_entry k st regs
     = Some (0, set_spoofed false st, k) ∧
   ∀ k2, Canonical.ksu_attach_recursive_mnt_ret k2 (set_spoofed false st)
           = Some (0, k2)) ∧
  (∀ real, Legacy.ksu_attach_recursive_mnt_entry real k0 st regs
             = Some (0, set_spoofed false st, k0)) ∧
  (∀ k2, Legacy.ksu_attach_recursive_mnt_ret k2 (set_spoofed false st)
           = Some (0, k2)).
Proof.
  intros k k0 st regs.
  apply (inactive_feature_leaves_flags k k0 st regs); reflexivity.
Defined.

(** C5.  Feature active, destination flags [MNT_SHARED | 0x10]: the
    entry handler saves [MNT_SHARED | 0x10] in the instance, leaves
    [0x10] (a non-shared word) on the mount for the body to see, and the
    return handler, run on whatever kernel the body leaves behind, puts
    [MNT_SHARED | 0x10] back. *)
Theorem shared_0x10_scenario
    (k : Canonical.kernel) (st : ksu_attach_mnt_state) (regs : pt_regs)
    (m : mount) :
  Canonical.ksu_mount_propagation_paused k ≠ 0 →
  deref (Canonical.mounts k) (PT_REGS_PARM2 regs) = Some m →
  mnt_flags m = Z.lor MNT_SHARED 0x10 →
  ∃ st' k',
    Canonical.ksu_attach_recursive_mnt_entry k st regs = Some (0, st', k') ∧
    dest_mnt st' = PT_REGS_PARM2 regs ∧
    original_flags st' = Z.lor MNT_SHARED 0x10 ∧
    spoofed st' = true ∧
    Canonical.flags_at k' (PT_REGS_PARM2 regs) = Some 0x10 ∧
    is_shared 0x10 = false ∧
    ∀ k2, is_Some (deref (Canonical.mounts k2) (PT_REGS_PARM2 regs)) →
      ∃ k3, Canonical.ksu_attach_recursive_mnt_ret k2 st' = Some (0, k3) ∧
            Canonical.flags_at k3 (PT_REGS_PARM2 regs)
              = Some (Z.lor MNT_SHARED 0x10).
Proof.
  intros Hp Hm Hf.
  pose proof Hm as [Hnull _]%deref_Some.
  unfold Canonical.ksu_attach_recursive_mnt_entry.
  apply Z.eqb_neq in Hp as ->. apply Z.eqb_neq in Hnull as ->.
  rewrite Hm. simpl. rewrite Hf.
  change (is_shared (Z.lor MNT_SHARED 16)) with true. simpl.
  do 2 eexists. split; [done|]. simpl. repeat split.
  - unfold Canonical.flags_at. simpl. by rewrite lookup_store_flags.
  - intros k2 Hk2.
    destruct (canonical_ret_restores k2
                (AttachState (PT_REGS_PARM2 regs) (Z.lor MNT_SHARED 16) true))
      as (k3 & Hr & Hfl & _); [done..|].
    by exists k3.
Qed.

Lemma shared_0x10_scenario_witness :
  let k := Canonical.Kernel 1 {[ 100 := Mount (Z.lor MNT_SHARED 0x10) None ]} in
  let st := AttachState 0 0 false in
  let regs := PtRegs 200 100 in
  ∃ st' k',
    Canonical.ksu_attach_recursive_mnt_entry k st regs = Some (0, st', k') ∧
    dest_mnt st' = PT_REGS_PARM2 regs ∧
    original_flags st' = Z.lor MNT_SHARED 0x10 ∧
    spoofed st' = true ∧
    Canonical.flags_at k' (PT_REGS_PARM2 regs) = Some 0x10 ∧
    is_shared 0x10 = false ∧
    ∀ k2, is_Some (deref (Canonical.mounts k2) (PT_REGS_PARM2 regs)) →
      ∃ k3, Canonical.ksu_attach_recursive_mnt_ret k2 st' = Some (0, k3) ∧
            Canonical.flags_at k3 (PT_REGS_PARM2 regs)
              = Some (Z.lor MNT_SHARED 0x10).
Proof.
  intros k st regs.
  apply (shared_0x10_scenario k st regs (Mount (Z.lor MNT_SHARED 0x10) None)).
  - vm_compute. discriminate.
  - reflexivity.
  - reflexivity.
Defined.

(** C6.  Feature active, destination valid and not shared (the source
    pointer plays no part): the entry handler leaves the kernel as it
    found it and the instance not spoofed, and the return handler then
    leaves any kernel it runs on unchanged. *)
Theorem private_destination_untouched
    (k : Canonical.kernel) (st : ksu_attach_mnt_state) (regs : pt_regs)
    (m : mount) :
  Canonical.ksu_mount_propagation_paused k ≠ 0 →
  deref (Canonical.mounts k) (PT_REGS_PARM2 regs) = Some m →
  is_shared (mnt_flags m) = false →
  Canonical.ksu_attach_recursive_mnt_entry k st regs
    = Some (0, set_spoofed false st, k) ∧
  spoofed (set_spoofed false st) = false ∧
  ∀ k2, Canonical.ksu_attach_recursive_mnt_ret k2 (set_spoofed false st)
          = Some (0, k2).
Proof.
  intros Hp Hm Hs.
  pose proof Hm as [Hnull _]%deref_Some.
  unfold Canonical.ksu_attach_recursive_mnt_entry.
  apply Z.eqb_neq in Hp as ->. apply Z.eqb_neq in Hnull as ->.
  rewrite Hm. simpl. rewrite Hs. simpl.
  split; [done|]. split; [done|].
  intros k2. by apply canonical_ret_not_spoofed.
Qed.

Lemma private_destination_untouched_witness :
  let k := Canonical.Kernel 1 {[ 100 := Mount 0x10 None ]} in
  let st := AttachState 5 6 true in
  let regs := PtRegs 200 100 in
  Canonical.ksu_attach_recursive_mnt_entry k st regs
    = Some (0, set_spoofed false st, k) ∧
  spoofed (set_spoofed false st) = false ∧
  ∀ k2, Canonical.ksu_attach_recursive_mnt_ret k2 (set_spoofed false st)
          = Some (0, k2).
Proof.
  intros k st regs.
  apply (private_destination_untouched k st regs (Mount 0x10 None)).
  - vm_compute. discriminate.
  - reflexivity.
  - reflexivity.
Defined.

(** ** Device names *)

Lemma strcmp_refl (s : string) : strcmp s s = 0.
Proof. induction s as [|c s IH]; simpl; [done|]. by case_decide. Qed.

Lemma strcmp_eq (cs ct : string) : strcmp cs ct = 0 ↔ cs = ct.
Proof.
  split; [|intros ->; apply strcmp_refl].
  revert ct. induction cs as [|c1 cs IH]; intros [|c2 ct]; simpl; try done.
  case_decide as Hc.
  - intros ->%IH. by subst.
  - by destruct (_ <? _)%nat.
Qed.

(** [strncmp (name, "/dev/block/loop", 15) == 0] says that the name
    starts with that text. *)
Lemma strncmp_loop_prefix (name : string) :
  strncmp name "/dev/block/loop" 15 = 0 ↔
  ∃ rest, name = ("/dev/block/loop" +:+ rest)%string.
Proof.
  split.
  - intros H.
    repeat (destruct name as [|? name]; simpl in H; [done|];
            case_decide; [subst|by destruct (_ <? _)%nat]).
    by exists name.
  - intros [rest ->]. simpl. reflexivity.
Qed.

Lemma strncpy_short (src : string) (n : nat) :
  (String.length src <= n)%nat → strncpy src n = src.
Proof.
  revert n. induction src as [|c src IH]; intros [|n]; simpl; try done.
  - lia.
  - intros Hn. f_equal. apply IH. lia.
Qed.

(** ** The handlers of the bootstrap revision *)

Lemma capture_devname_keeps source k k1 :
  Bootstrap.capture_devname source k = Some k1 →
  Bootstrap.mounts k1 = Bootstrap.mounts k ∧
  Bootstrap.ksu_zygote_started k1 = Bootstrap.ksu_zygote_started k.
Proof.
  unfold Bootstrap.capture_devname.
  destruct (_ =? 0); [|by intros [= <-]].
  destruct (deref _ source) as [src|]; simpl; [|done].
  destruct (mnt_devname src) as [name|]; [|by intros [= <-]].
  by destruct (_ =? 0); intros [= <-].
Qed.

(** Once a name has been captured it is frozen. *)
Lemma capture_devname_frozen source k :
  Bootstrap.ksu_modules_devname_initialized k ≠ 0 →
  Bootstrap.capture_devname source k = Some k.
Proof.
  intros Hi. unfold Bootstrap.capture_devname.
  by apply Z.eqb_neq in Hi as ->.
Qed.

(** What passing the scope gate after the latch means. *)
Lemma skip_spoof_false_after_latch source k :
  Bootstrap.ksu_zygote_started k ≠ 0 →
  Bootstrap.skip_spoof source k = Some false →
  Bootstrap.ksu_modules_devname_initialized k ≠ 0 ∧
  ∃ src, deref (Bootstrap.mounts k) source = Some src ∧
         (mnt_devname src = None ∨
          mnt_devname src = Some (Bootstrap.ksu_modules_devname k)).
Proof.
  intros Hz. unfold Bootstrap.skip_spoof.
  apply Z.eqb_neq in Hz as ->.
  destruct (Z.eqb_spec (Bootstrap.ksu_modules_devname_initialized k) 0)
    as [|Hi]; [done|].
  destruct (deref _ source) as [src|]; simpl; [|done].
  intros Hskip. split; [done|]. exists src. split; [done|].
  destruct (mnt_devname src) as [name|]; [right|by left].
  injection Hskip as Hskip.
  apply negb_false_iff, Z.eqb_eq, strcmp_eq in Hskip. by subst.
Qed.

Lemma bootstrap_entry_cases k st regs r st' k' :
  Bootstrap.ksu_attach_recursive_mnt_entry k st regs = Some (r, st', k') →
  r = 0 ∧
  (((PT_REGS_PARM1 regs = NULL ∨ PT_REGS_PARM2 regs = NULL) ∧
    st' = set_spoofed false st ∧ k' = k) ∨
   (∃ k1,
      PT_REGS_PARM1 regs ≠ NULL ∧ PT_REGS_PARM2 regs ≠ NULL ∧
      Bootstrap.capture_devname (PT_REGS_PARM1 regs) k = Some k1 ∧
      ((st' = set_spoofed false st ∧ k' = k1) ∨
       (∃ m,
          Bootstrap.skip_spoof (PT_REGS_PARM1 regs) k1 = Some false ∧
          deref (Bootstrap.mounts k) (PT_REGS_PARM2 regs) = Some m ∧
          is_shared (mnt_flags m) = true ∧
          st' = AttachState (PT_REGS_PARM2 regs) (mnt_flags m) true ∧
          k' = Bootstrap.set_mounts
                 (store_flags (PT_REGS_PARM2 regs) m
                    (clear_shared (mnt_flags m)) (Bootstrap.mounts k))
                 k1)))).
Proof.
  unfold Bootstrap.ksu_attach_recursive_mnt_entry.
  destruct (Z.eqb_spec (PT_REGS_PARM1 regs) NULL) as [|Hs]; simpl.
  { intros [= <- <- <-]. auto. }
  destruct (Z.eqb_spec (PT_REGS_PARM2 regs) NULL) as [|Hd]; simpl.
  { intros [= <- <- <-]. auto. }
  destruct (Bootstrap.capture_devname _ k) as [k1|] eqn:Hcap; simpl; [|done].
  pose proof (capture_devname_keeps _ _ _ Hcap) as [Hmounts _].
  destruct (Bootstrap.skip_spoof _ k1) as [[|]|] eqn:Hskip; simpl; [| |done].
  { intros [= <- <- <-]. split; [done|]. right. exists k1. split_and!; auto. }
  rewrite Hmounts.
  destruct (deref _ (PT_REGS_PARM2 regs)) as [m|] eqn:Hm; simpl; [|done].
  destruct (is_shared (mnt_flags m)) eqn:Hsh; simpl.
  - intros [= <- <- <-]. split; [done|]. right. exists k1.
    do 3 (split; [done|]). right. by exists m.
  - intros [= <- <- <-]. split; [done|]. right. exists k1. split_and!; auto.
Qed.

(** C10.  Whenever the entry handler marks the instance as spoofed, in
    the current revision and in the bootstrap revision alike, the word
    it saved is the destination's flags word as it was before the
    handler and has the shared bit (bit 12) set, and the word left on
    the destination mount is the saved one with bit 12 cleared and every
    other bit as it was. *)
Theorem spoof_clears_only_shared_bit :
  (∀ k st regs r st' k',
     Canonical.ksu_attach_recursive_mnt_entry k st regs = Some (r, st', k') →
     spoofed st' = true →
     dest_mnt st' = PT_REGS_PARM2 regs ∧
     Canonical.flags_at k (dest_mnt st') = Some (original_flags st') ∧
     is_shared (original_flags st') = true ∧
     Z.testbit (original_flags st') 12 = true ∧
     Canonical.flags_at k' (dest_mnt st')
       = Some (clear_shared (original_flags st')) ∧
     ∀ i, Z.testbit (clear_shared (original_flags st')) i
          = if decide (i = 12) then false
            else Z.testbit (original_flags st') i) ∧
  (∀ k st regs r st' k',
     Bootstrap.ksu_attach_recursive_mnt_entry k st regs = Some (r, st', k') →
     spoofed st' = true →
     dest_mnt st' = PT_REGS_PARM2 regs ∧
     Bootstrap.flags_at k (dest_mnt st') = Some (original_flags st') ∧
     is_shared (original_flags st') = true ∧
     Z.testbit (original_flags st') 12 = true ∧
     Bootstrap.flags_at k' (dest_mnt st')
       = Some (clear_shared (original_flags st')) ∧
     ∀ i, Z.testbit (clear_shared (original_flags st')) i
          = if decide (i = 12) then false
            else Z.testbit (original_flags st') i).
Proof.
  split; intros k st regs r st' k' He Hs.
  - apply canonical_entry_cases in He
      as [_ [[-> _]|(m & _ & [_ Hm]%deref_Some & Hsh & -> & ->)]]; [done|].
    unfold Canonical.flags_at. cbn [dest_mnt original_flags Canonical.mounts
      Canonical.set_mounts].
    rewrite Hm, lookup_store_flags. split_and!; try done.
    + by rewrite <- is_shared_testbit.
    + apply clear_shared_testbit.
  - apply bootstrap_entry_cases in He
      as [_ [(_ & -> & _)|(k1 & _ & _ & _ & [[-> _]|
              (m & _ & [_ Hm]%deref_Some & Hsh & -> & ->)])]]; [done..|].
    unfold Bootstrap.flags_at. cbn [dest_mnt original_flags Bootstrap.mounts
      Bootstrap.set_mounts].
    rewrite Hm, lookup_store_flags. split_and!; try done.
    + by rewrite <- is_shared_testbit.
    + apply clear_shared_testbit.
Qed.

Lemma spoof_clears_only_shared_bit_witness :
  let k := Canonical.Kernel 1 {[ 100 := Mount 0x1031 None ]} in
  let st' := AttachState 100 0x1031 true in
  Canonical.flags_at k (dest_mnt st') = Some 0x1031 ∧
  Z.testbit 0x1031 12 = true ∧
  Canonical.flags_at
    (Canonical.Kernel 1 {[ 100 := Mount 0x31 None ]}) (dest_mnt st')
    = Some (clear_shared 0x1031).
Proof.
  intros k st'.
  destruct (proj1 spoof_clears_only_shared_bit k (AttachState 0 0 false)
              (PtRegs 200 100) 0 st'
              (Canonical.Kernel 1 {[ 100 := Mount 0x31 None ]})
              eq_refl eq_refl)
    as (_ & H1 & _ & H2 & H3 & _).
  exact (conj H1 (conj H2 H3)).
Defined.

(** The current revision does not look at the source pointer: with a
    null source and a shared destination the spoof is made all the
    same. *)
Example canonical_null_source_spoofs :
  Canonical.ksu_attach_recursive_mnt_entry
    (Canonical.Kernel 1 {[ 100 := Mount (Z.lor MNT_SHARED 0x10) None ]})
    (AttachState 0 0 false) (PtRegs NULL 100)
  = Some (0, AttachState 100 (Z.lor MNT_SHARED 0x10) true,
          Canonical.Kernel 1 {[ 100 := Mount 0x10 None ]}).
Proof. reflexivity. Qed.

(** The first revision reads the destination's flags through whatever
    pointer it is given: with the feature active a null destination is
    dereferenced. *)
Lemma legacy_entry_null_destination_faults real k st regs :
  Legacy.ksu_mount_propagation_paused k ≠ 0 →
  PT_REGS_PARM2 (real regs) = NULL →
  Legacy.ksu_attach_recursive_mnt_entry real k st regs = None.
Proof.
  intros Hp Hnull. unfold Legacy.ksu_attach_recursive_mnt_entry.
  apply Z.eqb_neq in Hp as ->. by rewrite Hnull.
Qed.

(** C2, as stated, fails on the current revision: a null source
    reference alone does not make its entry handler do nothing. *)
Lemma canonical_entry_ignores_null_source :
  ¬ (∀ k st regs,
       PT_REGS_PARM1 regs = NULL ∨ PT_REGS_PARM2 regs = NULL →
       Canonical.ksu_attach_recursive_mnt_entry k st regs
         = Some (0, set_spoofed false st, k)).
Proof.
  intros H.
  specialize (H (Canonical.Kernel 1
                   {[ 100 := Mount (Z.lor MNT_SHARED 0x10) None ]})
                (AttachState 0 0 false) (PtRegs NULL 100)
                (or_introl eq_refl)).
  rewrite canonical_null_source_spoofs in H.
  apply (f_equal (fmap (λ r, spoofed (snd (fst r))))) in H.
  discriminate H.
Qed.

(** C2, amended.  The bootstrap revision checks both references: if
    either is null its entry handler only writes [spoofed = false] and
    leaves the kernel as it was.  The current revision checks the
    destination reference, the only one it uses: if that is null its
    entry handler only writes [spoofed = false] and leaves the kernel as
    it was.  In both, the return handler then changes nothing. *)
Theorem null_reference_validation :
  (∀ k st regs,
     PT_REGS_PARM1 regs = NULL ∨ PT_REGS_PARM2 regs = NULL →
     Bootstrap.ksu_attach_recursive_mnt_entry k st regs
       = Some (0, set_spoofed false st, k) ∧
     ∀ k2, Bootstrap.ksu_attach_recursive_mnt_ret k2 (set_spoofed false st)
             = Some (0, k2)) ∧
  (∀ k st regs,
     PT_REGS_PARM2 regs = NULL →
     Canonical.ksu_attach_recursive_mnt_entry k st regs
       = Some (0, set_spoofed false st, k) ∧
     ∀ k2, Canonical.ksu_attach_recursive_mnt_ret k2 (set_spoofed false st)
             = Some (0, k2)).
Proof.
  split; intros k st regs Hnull; (split; [|done]).
  - unfold Bootstrap.ksu_attach_recursive_mnt_entry.
    destruct Hnull as [-> | ->]; [done|].
    by rewrite orb_true_r.
  - unfold Canonical.ksu_attach_recursive_mnt_entry. rewrite Hnull.
    by destruct (_ =? 0).
Qed.

Lemma null_reference_validation_witness :
  Bootstrap.ksu_attach_recursive_mnt_entry
    (Bootstrap.Kernel 0 0 "" {[ 100 := Mount (Z.lor MNT_SHARED 0x10) None ]})
    (AttachState 5 6 true) (PtRegs NULL 100)
  = Some (0, AttachState 5 6 false,
          Bootstrap.Kernel 0 0 "" {[ 100 := Mount (Z.lor MNT_SHARED 0x10) None ]})
  ∧
  Canonical.ksu_attach_recursive_mnt_entry
    (Canonical.Kernel 1 {[ 100 := Mount (Z.lor MNT_SHARED 0x10) None ]})
    (AttachState 5 6 true) (PtRegs 100 NULL)
  = Some (0, AttachState 5 6 false,
          Canonical.Kernel 1 {[ 100 := Mount (Z.lor MNT_SHARED 0x10) None ]}).
Proof.
  split.
  - exact (proj1 (proj1 null_reference_validation
                    (Bootstrap.Kernel 0 0 ""
                       {[ 100 := Mount (Z.lor MNT_SHARED 0x10) None ]})
                    (AttachState 5 6 true) (PtRegs NULL 100)
                    (or_introl eq_refl))).
  - exact (proj1 (proj2 null_reference_validation
                    (Canonical.Kernel 1
                       {[ 100 := Mount (Z.lor MNT_SHARED 0x10) None ]})
                    (AttachState 5 6 true) (PtRegs 100 NULL) eq_refl)).
Defined.

(** After the latch, a source mount without a device name passes the
    scope gate even though a different name was captured. *)
Example bootstrap_nameless_source_spoofs :
  Bootstrap.ksu_attach_recursive_mnt_entry
    (Bootstrap.Kernel 1 1 "/dev/block/loop7"
       {[ 200 := Mount 0 None;
          100 := Mount (Z.lor MNT_SHARED 0x10) (Some "tmpfs") ]})
    (AttachState 0 0 false) (PtRegs 200 100)
  = Some (0, AttachState 100 (Z.lor MNT_SHARED 0x10) true,
          Bootstrap.Kernel 1 1 "/dev/block/loop7"
            {[ 200 := Mount 0 None; 100 := Mount 0x10 (Some "tmpfs") ]}).
Proof. reflexivity. Qed.

(** C3, as stated, fails: after the latch the spoof is not limited to
    sources whose device name is the captured one. *)
Lemma scope_gate_admits_nameless_source :
  ¬ (∀ k st regs src r st' k',
       Bootstrap.ksu_zygote_started k ≠ 0 →
       deref (Bootstrap.mounts k) (PT_REGS_PARM1 regs) = Some src →
       Bootstrap.ksu_attach_recursive_mnt_entry k st regs
         = Some (r, st', k') →
       spoofed st' = true →
       mnt_devname src = Some (Bootstrap.ksu_modules_devname k')).
Proof.
  intros H.
  assert (Hz : (1 : Z) ≠ 0) by discriminate.
  pose proof (H (Bootstrap.Kernel 1 1 "/dev/block/loop7"
                   {[ 200 := Mount 0 None;
                      100 := Mount (Z.lor MNT_SHARED 0x10) (Some "tmpfs") ]})
                (AttachState 0 0 false) (PtRegs 200 100) (Mount 0 None)
                _ _ _ Hz eq_refl bootstrap_nameless_source_spoofs eq_refl)
    as Hname.
  discriminate Hname.
Qed.

(** C3, amended.  For an invocation arriving after the bootstrap signal
    has been latched, whose source reference is a mount: the captured
    name the gate compares with is the one in the kernel after the
    handler (the one captured before, if any, else the one this
    invocation's own capture step took); the spoof is applied only when
    a name has been captured and the source's device name is null or
    equal to it; and an invocation whose source device name is non-null
    and differs from it is bypassed, the instance not spoofed and no
    mount changed. *)
Theorem scope_gate_after_bootstrap
    (k : Bootstrap.kernel) (st : ksu_attach_mnt_state) (regs : pt_regs)
    (src : mount) (r : Z) (st' : ksu_attach_mnt_state)
    (k' : Bootstrap.kernel) :
  Bootstrap.ksu_zygote_started k ≠ 0 →
  deref (Bootstrap.mounts k) (PT_REGS_PARM1 regs) = Some src →
  Bootstrap.ksu_attach_recursive_mnt_entry k st regs = Some (r, st', k') →
  (Bootstrap.ksu_modules_devname_initialized k ≠ 0 →
   Bootstrap.ksu_modules_devname k' = Bootstrap.ksu_modules_devname k) ∧
  (spoofed st' = true →
   Bootstrap.ksu_modules_devname_initialized k' ≠ 0 ∧
   (mnt_devname src = None ∨
    mnt_devname src = Some (Bootstrap.ksu_modules_devname k'))) ∧
  (∀ name,
     mnt_devname src = Some name →
     name ≠ Bootstrap.ksu_modules_devname k' →
     st' = set_spoofed false st ∧
     Bootstrap.mounts k' = Bootstrap.mounts k).
Proof.
  intros Hz Hsrc He.
  apply bootstrap_entry_cases in He as [_ He].
  destruct He as [(_ & -> & ->)|(k1 & _ & _ & Hcap & He)].
  { split_and!; [done|done|]. by intros. }
  pose proof (capture_devname_keeps _ _ _ Hcap) as [Hmounts Hz1].
  assert (Hfrozen : Bootstrap.ksu_modules_devname_initialized k ≠ 0 →
                    k1 = k).
  { intros Hi. rewrite capture_devname_frozen in Hcap by done. congruence. }
  destruct He as [[-> ->]|(m & Hskip & _ & _ & -> & ->)].
  - split_and!.
    + by intros ->%Hfrozen.
    + done.
    + by intros _ _ _.
  - apply skip_spoof_false_after_latch in Hskip
      as (Hi1 & src' & Hsrc' & Hname); [|congruence].
    rewrite Hmounts in Hsrc'. assert (src' = src) as -> by congruence.
    simpl. split_and!.
    + by intros ->%Hfrozen.
    + done.
    + intros name Hsome Hne. destruct Hname; congruence.
Qed.

Lemma scope_gate_after_bootstrap_witness :
  let k := Bootstrap.Kernel 1 1 "/dev/block/loop7"
             {[ 200 := Mount 0 (Some "/dev/block/dm-3");
                100 := Mount (Z.lor MNT_SHARED 0x10) (Some "tmpfs") ]} in
  let st := AttachState 5 6 true in
  Bootstrap.ksu_attach_recursive_mnt_entry k st (PtRegs 200 100)
    = Some (0, AttachState 5 6 false, k) ∧
  AttachState 5 6 false = set_spoofed false st ∧
  Bootstrap.mounts k = Bootstrap.mounts k.
Proof.
  intros k st. split; [reflexivity|].
  refine (proj2 (proj2
    (scope_gate_after_bootstrap k st (PtRegs 200 100)
       (Mount 0 (Some "/dev/block/dm-3")) 0 (AttachState 5 6 false) k
       _ eq_refl eq_refl)) "/dev/block/dm-3"%string eq_refl _).
  - simpl. discriminate.
  - simpl. discriminate.
Defined.

(** C9.  After the latch and with a name captured, an invocation whose
    source mount has a null device-name pointer is not skipped by the
    scope gate; if its destination is shared the spoof is applied, the
    saved word being the destination's flags and the word left on the
    mount the same with the shared bit cleared. *)
Theorem nameless_source_stays_in_scope
    (k : Bootstrap.kernel) (st : ksu_attach_mnt_state) (regs : pt_regs)
    (src m : mount) :
  Bootstrap.ksu_zygote_started k ≠ 0 →
  Bootstrap.ksu_modules_devname_initialized k ≠ 0 →
  deref (Bootstrap.mounts k) (PT_REGS_PARM1 regs) = Some src →
  mnt_devname src = None →
  deref (Bootstrap.mounts k) (PT_REGS_PARM2 regs) = Some m →
  is_shared (mnt_flags m) = true →
  mnt_devname src ≠ Some (Bootstrap.ksu_modules_devname k) ∧
  Bootstrap.capture_devname (PT_REGS_PARM1 regs) k = Some k ∧
  Bootstrap.skip_spoof (PT_REGS_PARM1 regs) k = Some false ∧
  ∃ k',
    Bootstrap.ksu_attach_recursive_mnt_entry k st regs
      = Some (0, AttachState (PT_REGS_PARM2 regs) (mnt_flags m) true, k') ∧
    Bootstrap.flags_at k' (PT_REGS_PARM2 regs)
      = Some (clear_shared (mnt_flags m)) ∧
    Bootstrap.ksu_modules_devname k' = Bootstrap.ksu_modules_devname k.
Proof.
  intros Hz Hi Hsrc Hname Hm Hsh.
  pose proof Hsrc as [Hs0 _]%deref_Some.
  pose proof Hm as [Hd0 _]%deref_Some.
  assert (Hskip : Bootstrap.skip_spoof (PT_REGS_PARM1 regs) k = Some false).
  { unfold Bootstrap.skip_spoof. rewrite Hsrc. simpl. rewrite Hname.
    apply Z.eqb_neq in Hz as ->. by apply Z.eqb_neq in Hi as ->. }
  split; [by rewrite Hname|].
  split; [by apply capture_devname_frozen|]. split; [done|].
  unfold Bootstrap.ksu_attach_recursive_mnt_entry.
  apply Z.eqb_neq in Hs0 as ->. apply Z.eqb_neq in Hd0 as ->.
  rewrite capture_devname_frozen by done. simpl.
  rewrite Hskip. simpl. rewrite Hm. simpl.
  rewrite Hsh. simpl. eexists. split; [done|].
  unfold Bootstrap.flags_at. simpl. by rewrite lookup_store_flags.
Qed.

Lemma nameless_source_stays_in_scope_witness :
  let k := Bootstrap.Kernel 1 1 "/dev/block/loop7"
             {[ 200 := Mount 0 None;
                100 := Mount (Z.lor MNT_SHARED 0x10) (Some "tmpfs") ]} in
  ∃ k',
    Bootstrap.ksu_attach_recursive_mnt_entry k (AttachState 0 0 false)
      (PtRegs 200 100)
      = Some (0, AttachState 100 (Z.lor MNT_SHARED 0x10) true, k') ∧
    Bootstrap.flags_at k' 100 = Some (clear_shared (Z.lor MNT_SHARED 0x10)) ∧
    Bootstrap.ksu_modules_devname k' = "/dev/block/loop7"%string.
Proof.
  intros k.
  exact (proj2 (proj2 (proj2
    (nameless_source_stays_in_scope k (AttachState 0 0 false)
       (PtRegs 200 100) (Mount 0 None)
       (Mount (Z.lor MNT_SHARED 0x10) (Some "tmpfs"))
       ltac:(simpl; discriminate) ltac:(simpl; discriminate)
       eq_refl eq_refl eq_refl eq_refl)))).
Defined.

(** ** Initialisation *)

(** C8.  [ksu_mount_hook_init] returns a status and nothing else (it is
    a total function: no path stops the host).  In the revision that
    resolves the symbol itself the status is non-zero exactly when the
    hook is compiled in and either the address came back null, and then
    it is [-ENOENT], or the address was found and the registration
    status is negative, and then it is that status; a failure status is
    negative and every other case gives 0.  In the current revision the
    symbol is resolved by the registration, so the status is non-zero
    exactly when the registration status is negative, and is that
    status. *)
Theorem init_failure_cases (have_kprobes : bool) (addr reg : Z) :
  let r := Legacy.ksu_mount_hook_init have_kprobes addr reg in
  let rc := Canonical.ksu_mount_hook_init have_kprobes reg in
  (r ≠ 0 ↔ have_kprobes = true ∧ (addr = NULL ∨ (addr ≠ NULL ∧ reg < 0))) ∧
  (have_kprobes = true → addr = NULL → r = - ENOENT) ∧
  (have_kprobes = true → addr ≠ NULL → reg < 0 → r = reg) ∧
  (r ≠ 0 → r < 0) ∧
  (rc ≠ 0 ↔ have_kprobes = true ∧ reg < 0) ∧
  (have_kprobes = true → reg < 0 → rc = reg).
Proof.
  unfold Legacy.ksu_mount_hook_init, Canonical.ksu_mount_hook_init,
    ENOENT, NULL.
  destruct have_kprobes; simpl;
    destruct (Z.eqb_spec addr 0), (Z.ltb_spec reg 0);
    split_and!; try split; intros; try lia; try done; naive_solver lia.
Qed.

Lemma init_failure_cases_witness :
  Legacy.ksu_mount_hook_init true NULL 0 = - ENOENT ∧
  Legacy.ksu_mount_hook_init true 0xffff (-16) = -16 ∧
  Canonical.ksu_mount_hook_init true (-16) = -16.
Proof.
  split_and!.
  - exact (proj1 (proj2 (init_failure_cases true NULL 0)) eq_refl eq_refl).
  - refine (proj1 (proj2 (proj2 (init_failure_cases true 0xffff (-16))))
              eq_refl _ _); [discriminate|reflexivity].
  - exact (proj2 (proj2 (proj2 (proj2 (proj2
             (init_failure_cases true 0 (-16)))))) eq_refl eq_refl).
Defined.

(** ** Calls in flight *)

Lemma step_keeps_mounted s e s' q :
  Canonical.step s e = Some s' →
  is_Some (deref (Canonical.mounts (Canonical.sys_kernel s)) q) →
  is_Some (deref (Canonical.mounts (Canonical.sys_kernel s')) q).
Proof.
  destruct e as [i stale regs|regs|i|pause|p f]; simpl.
  - destruct (Canonical.instances s !! i); [done|].
    case_decide; [|done].
    destruct (Canonical.ksu_attach_recursive_mnt_entry _ _ _)
      as [[[r st] k]|] eqn:He; simpl; [|done].
    apply canonical_entry_cases in He
      as [-> [[_ ->]|(m & _ & _ & _ & _ & ->)]];
      intros [= <-]; simpl; [done|]. apply deref_store_flags.
  - case_decide; [done|]. by intros [= <-].
  - destruct (Canonical.instances s !! i) as [st|]; simpl; [|done].
    unfold Canonical.ksu_attach_recursive_mnt_ret.
    destruct (spoofed st); simpl; [|by intros [= <-]].
    destruct (deref _ (dest_mnt st)) as [m|]; simpl; [|done].
    intros [= <-]. simpl. apply deref_store_flags.
  - intros [= <-]. simpl. by destruct pause.
  - destruct (deref _ p) as [m|]; simpl; [|done].
    intros [= <-]. simpl. apply deref_store_flags.
Qed.

(** An instance belongs to its call until that call's return handler has
    run: no other event writes it. *)
Lemma step_keeps_instance s e s' i st :
  Canonical.step s e = Some s' →
  Canonical.is_ret_of i e = false →
  Canonical.instances s !! i = Some st →
  Canonical.instances s' !! i = Some st.
Proof.
  intros Hstep Hret Hi.
  destruct e as [j stale regs|regs|j|pause|p f]; simpl in *.
  - destruct (Canonical.instances s !! j) eqn:Hj; [done|].
    case_decide; [|done].
    destruct (Canonical.ksu_attach_recursive_mnt_entry _ _ _)
      as [[[r st0] k]|]; simpl in *; [|done].
    destruct (r =? 0); injection Hstep as <-; simpl; [|done].
    rewrite lookup_insert_ne; [done|congruence].
  - case_decide; [done|]. by injection Hstep as <-.
  - apply bool_decide_eq_false in Hret.
    destruct (Canonical.instances s !! j) as [stj|]; simpl in *; [|done].
    destruct (Canonical.ksu_attach_recursive_mnt_ret _ _)
      as [[r k]|]; simpl in *; [|done].
    injection Hstep as <-. simpl. rewrite lookup_delete_ne; [done|congruence].
  - by injection Hstep as <-.
  - destruct (deref _ p); simpl in *; [|done]. by injection Hstep as <-.
Qed.

Lemma run_keeps_mounted es : ∀ s s' q,
  Canonical.run s es = Some s' →
  is_Some (deref (Canonical.mounts (Canonical.sys_kernel s)) q) →
  is_Some (deref (Canonical.mounts (Canonical.sys_kernel s')) q).
Proof.
  induction es as [|e es IH]; intros s s' q; simpl.
  - by intros [= <-].
  - destruct (Canonical.step s e) as [s1|] eqn:Hs; simpl; [|done].
    intros Hrun Hq. eapply IH; [done|]. by eapply step_keeps_mounted.
Qed.

Lemma run_keeps_instance es : ∀ s s' i st,
  Canonical.run s es = Some s' →
  existsb (Canonical.is_ret_of i) es = false →
  Canonical.instances s !! i = Some st →
  Canonical.instances s' !! i = Some st.
Proof.
  induction es as [|e es IH]; intros s s' i st; simpl.
  - by intros [= <-].
  - destruct (Canonical.step s e) as [s1|] eqn:Hs; simpl; [|done].
    intros Hrun [He Hes]%orb_false_elim Hi.
    eapply IH; [done..|]. by eapply step_keeps_instance.
Qed.

(** C1.  Round trip.  Take any state of the system and a call whose
    entry handler marks its instance as spoofed.  Let anything happen
    afterwards, short of that call's own return: the body and other
    kernel code writing flags of any mount (the destination included),
    other calls entering and returning, calls being missed, the pause
    flag being switched.  Then the call's return handler runs to
    completion, and when it has run the destination's flags are again
    the word they were before the entry handler, which is the word the
    instance saved; the instance is then free. *)
Theorem spoofed_call_round_trip
    (s1 : Canonical.system) (i : nat) (stale : ksu_attach_mnt_state)
    (regs : pt_regs) (s2 : Canonical.system) (st : ksu_attach_mnt_state)
    (mid : list Canonical.event) (s3 : Canonical.system) :
  Canonical.step s1 (Canonical.EvEntry i stale regs) = Some s2 →
  Canonical.instances s2 !! i = Some st →
  spoofed st = true →
  existsb (Canonical.is_ret_of i) mid = false →
  Canonical.run s2 mid = Some s3 →
  ∃ s4,
    Canonical.step s3 (Canonical.EvRet i) = Some s4 ∧
    dest_mnt st = PT_REGS_PARM2 regs ∧
    Canonical.flags_at (Canonical.sys_kernel s1) (PT_REGS_PARM2 regs)
      = Some (original_flags st) ∧
    Canonical.flags_at (Canonical.sys_kernel s4) (PT_REGS_PARM2 regs)
      = Some (original_flags st) ∧
    Canonical.instances s4 !! i = None.
Proof.
  intros Hentry Hst Hsp Hmid Hrun. simpl in Hentry.
  destruct (Canonical.instances s1 !! i) eqn:Hfree; [done|].
  case_decide; [|done].
  destruct (Canonical.ksu_attach_recursive_mnt_entry _ _ _)
    as [[[r st0] k]|] eqn:He; simpl in Hentry; [|done].
  apply canonical_entry_cases in He as [-> He].
  injection Hentry as <-. simpl in Hst.
  rewrite lookup_insert_eq in Hst. injection Hst as ->.
  destruct He as [[-> _]|(m & _ & Hm & _ & -> & ->)]; [done|].
  pose proof Hm as [_ Hlook]%deref_Some.
  set (s2 := Canonical.System _ _ _) in *.
  assert (Hmounted :
    is_Some (deref (Canonical.mounts (Canonical.sys_kernel s3))
               (PT_REGS_PARM2 regs))).
  { eapply run_keeps_mounted; [done|]. simpl. apply deref_store_flags. eauto. }
  assert (Hinst : Canonical.instances s3 !! i
                  = Some (AttachState (PT_REGS_PARM2 regs) (mnt_flags m) true)).
  { eapply run_keeps_instance; [done..|]. simpl. apply lookup_insert_eq. }
  destruct (canonical_ret_restores (Canonical.sys_kernel s3)
              (AttachState (PT_REGS_PARM2 regs) (mnt_flags m) true))
    as (k4 & Hret & Hflags & _); [done..|].
  exists (Canonical.System k4 (delete i (Canonical.instances s3))
            (Canonical.nmissed s3)).
  simpl. rewrite Hinst. simpl. rewrite Hret. simpl.
  split_and!; try done.
  - unfold Canonical.flags_at. by rewrite Hlook.
  - apply lookup_delete_eq.
Qed.

Lemma spoofed_call_round_trip_witness :
  let regs := PtRegs 200 100 in
  let st := AttachState 100 (Z.lor MNT_SHARED 0x10) true in
  let s1 := Canonical.System
              (Canonical.Kernel 1
                 {[ 100 := Mount (Z.lor MNT_SHARED 0x10) None ]}) ∅ 0 in
  let s3 := Canonical.System
              (Canonical.Kernel 1 {[ 100 := Mount 0x1033 None ]})
              {[ 0%nat := st ]} 0 in
  ∃ s4,
    Canonical.step s3 (Canonical.EvRet 0) = Some s4 ∧
    dest_mnt st = PT_REGS_PARM2 regs ∧
    Canonical.flags_at (Canonical.sys_kernel s1) (PT_REGS_PARM2 regs)
      = Some (original_flags st) ∧
    Canonical.flags_at (Canonical.sys_kernel s4) (PT_REGS_PARM2 regs)
      = Some (original_flags st) ∧
    Canonical.instances s4 !! 0%nat = None.
Proof.
  intros regs st s1 s3.
  apply (spoofed_call_round_trip s1 0 (AttachState 9 9 true) regs
           (Canonical.System
              (Canonical.Kernel 1 {[ 100 := Mount 0x10 None ]})
              {[ 0%nat := st ]} 0)
           st
           [Canonical.EvWrite 100 0x1033;
            Canonical.EvPause false;
            Canonical.EvEntry 1 (AttachState 0 0 false) regs;
            Canonical.EvPause true;
            Canonical.EvEntry 2 (AttachState 0 0 false) regs;
            Canonical.EvWrite 100 0x77;
            Canonical.EvRet 2;
            Canonical.EvRet 1]
           s3).
  - vm_compute. reflexivity.
  - vm_compute. reflexivity.
  - reflexivity.
  - reflexivity.
  - vm_compute. reflexivity.
Defined.

(** The return handler does not read the pause flag: writing the flag
    before the handler or after it comes to the same. *)
Lemma canonical_ret_ignores_pause k st v :
  Canonical.ksu_attach_recursive_mnt_ret (Canonical.atomic_set_paused v k) st
  = (λ rk : Z * Canonical.kernel,
       (rk.1, Canonical.atomic_set_paused v rk.2))
    <$> Canonical.ksu_attach_recursive_mnt_ret k st.
Proof.
  unfold Canonical.ksu_attach_recursive_mnt_ret.
  destruct (spoofed st); simpl; [|done].
  by destruct (deref (Canonical.mounts k) (dest_mnt st)).
Qed.

(** C7.  A call whose entry handler has run owns an instance holding
    what was decided at entry.  Whatever happens before its return
    handler runs, the pause flag being switched off, on, or both, any
    number of times, included, the instance still holds exactly that;
    and when the return handler runs, its outcome under any value of
    the pause flag is its outcome under the value actually there, up to
    the flag itself: the same return value, the same mounts.  Whether
    the flags are restored depends on the instance alone. *)
Theorem in_flight_call_ignores_pause_flag
    (s : Canonical.system) (i : nat) (st : ksu_attach_mnt_state)
    (mid : list Canonical.event) (s3 : Canonical.system) :
  Canonical.instances s !! i = Some st →
  existsb (Canonical.is_ret_of i) mid = false →
  Canonical.run s mid = Some s3 →
  Canonical.instances s3 !! i = Some st ∧
  (∀ v,
     Canonical.ksu_attach_recursive_mnt_ret
       (Canonical.atomic_set_paused v (Canonical.sys_kernel s3)) st
     = (λ rk : Z * Canonical.kernel,
          (rk.1, Canonical.atomic_set_paused v rk.2))
       <$> Canonical.ksu_attach_recursive_mnt_ret
             (Canonical.sys_kernel s3) st) ∧
  (∀ pause s4,
     Canonical.step s3 (Canonical.EvPause pause) = Some s4 →
     Canonical.instances s4 = Canonical.instances s3 ∧
     Canonical.mounts (Canonical.sys_kernel s4)
       = Canonical.mounts (Canonical.sys_kernel s3) ∧
     (λ t, (Canonical.mounts (Canonical.sys_kernel t),
            Canonical.instances t))
       <$> Canonical.step s4 (Canonical.EvRet i)
     = (λ t, (Canonical.mounts (Canonical.sys_kernel t),
              Canonical.instances t))
       <$> Canonical.step s3 (Canonical.EvRet i)).
Proof.
  intros Hi Hmid Hrun.
  assert (Hi3 : Canonical.instances s3 !! i = Some st)
    by (by eapply run_keeps_instance).
  split; [done|]. split; [intros v; apply canonical_ret_ignores_pause|].
  intros pause s4 [= <-]. simpl. split; [done|].
  split; [by destruct pause|].
  rewrite Hi3. simpl.
  assert (Canonical.ksu_pause_mount_propagation pause (Canonical.sys_kernel s3)
          = Canonical.atomic_set_paused (if pause then 1 else 0)
              (Canonical.sys_kernel s3)) as -> by (by destruct pause).
  rewrite canonical_ret_ignores_pause.
  by destruct (Canonical.ksu_attach_recursive_mnt_ret _ st) as [[r k]|].
Qed.

Lemma in_flight_call_ignores_pause_flag_witness :
  let st := AttachState 100 (Z.lor MNT_SHARED 0x10) true in
  let s3 := Canonical.System
              (Canonical.Kernel 1 {[ 100 := Mount 0x10 None ]})
              {[ 0%nat := st ]} 0 in
  Canonical.instances s3 !! 0%nat = Some st ∧
  ∀ v,
    Canonical.ksu_attach_recursive_mnt_ret
      (Canonical.atomic_set_paused v (Canonical.sys_kernel s3)) st
    = (λ rk : Z * Canonical.kernel,
         (rk.1, Canonical.atomic_set_paused v rk.2))
      <$> Canonical.ksu_attach_recursive_mnt_ret
            (Canonical.sys_kernel s3) st.
Proof.
  intros st s3.
  pose proof (in_flight_call_ignores_pause_flag
                (Canonical.System
                   (Canonical.Kernel 1 {[ 100 := Mount 0x10 None ]})
                   {[ 0%nat := st ]} 0)
                0 st
                [Canonical.EvPause false; Canonical.EvPause true;
                 Canonical.EvPause false; Canonical.EvPause true]
                s3 eq_refl eq_refl eq_refl) as (H1 & H2 & _).
  exact (conj H1 H2).
Defined.

(** * Further properties of the handlers *)

(** ** The current revision, one call *)


(** X2.  The entry handler of the current revision marks the instance
    as spoofed exactly when the feature is active and the destination
    is a non-null mount whose shared bit is set; in every other case
    that returns, the kernel is left as it was and the instance is the
    stale one with [spoofed] cleared. *)
Theorem canonical_entry_spoofs_iff
    (k : Canonical.kernel) (st : ksu_attach_mnt_state) (regs : pt_regs)
    (r : Z) (st' : ksu_attach_mnt_state) (k' : Canonical.kernel) :
  Canonical.ksu_attach_recursive_mnt_entry k st regs = Some (r, st', k') →
  (spoofed st' = true ↔
   Canonical.ksu_mount_propagation_paused k ≠ 0 ∧
   PT_REGS_PARM2 regs ≠ NULL ∧
   ∃ m, Canonical.mounts k !! PT_REGS_PARM2 regs = Some m ∧
        is_shared (mnt_flags m) = true) ∧
  (spoofed st' = false → st' = set_spoofed false st ∧ k' = k).
Proof.
  intros He. pose proof He as Hc.
  apply canonical_entry_cases in Hc
    as [_ [[-> ->]|(m & Hp & [Hd Hm]%deref_Some & Hsh & -> & ->)]].
  - split; [|done]. split; [done|].
    intros (Hp & Hd & m & Hm & Hsh). exfalso.
    unfold Canonical.ksu_attach_recursive_mnt_entry, deref in He.
    apply Z.eqb_neq in Hp. apply Z.eqb_neq in Hd.
    rewrite Hp, Hd in He. case_decide; [by apply Z.eqb_neq in Hd|].
    rewrite Hm in He. simpl in He. rewrite Hsh in He. simpl in He.
    apply (f_equal (fmap (λ x, spoofed (snd (fst x))))) in He.
    discriminate He.
  - split; [|done]. split; [|done]. intros _. eauto.
Qed.

Lemma canonical_entry_spoofs_iff_witness :
  (spoofed (AttachState 100 0x1031 true) = true ↔
   (1 : Z) ≠ 0 ∧ (100 : Z) ≠ NULL ∧
   ∃ m, ({[ 100 := Mount 0x1031 None ]} : gmap Z mount) !! (100 : Z)
          = Some m ∧
        is_shared (mnt_flags m) = true).
Proof.
  exact (proj1 (canonical_entry_spoofs_iff
                  (Canonical.Kernel 1 {[ 100 := Mount 0x1031 None ]})
                  (AttachState 0 0 false) (PtRegs 200 100) 0
                  (AttachState 100 0x1031 true)
                  (Canonical.Kernel 1 {[ 100 := Mount 0x31 None ]})
                  eq_refl)).
Defined.

(** X3.  What the entry handler of the current revision never touches:
    the pause flag, the flags of any mount other than the destination,
    the device name of any mount, and the set of mounts. *)
Theorem canonical_entry_frame
    (k : Canonical.kernel) (st : ksu_attach_mnt_state) (regs : pt_regs)
    (r : Z) (st' : ksu_attach_mnt_state) (k' : Canonical.kernel) :
  Canonical.ksu_attach_recursive_mnt_entry k st regs = Some (r, st', k') →
  r = 0 ∧
  Canonical.ksu_mount_propagation_paused k'
    = Canonical.ksu_mount_propagation_paused k ∧
  (∀ q, q ≠ PT_REGS_PARM2 regs →
        Canonical.mounts k' !! q = Canonical.mounts k !! q) ∧
  (∀ q, mnt_devname <$> Canonical.mounts k' !! q
        = mnt_devname <$> Canonical.mounts k !! q) ∧
  dom (Canonical.mounts k') = dom (Canonical.mounts k).
Proof.
  intros He.
  apply canonical_entry_cases in He
    as [-> [[-> ->]|(m & Hp & [Hd Hm]%deref_Some & Hsh & -> & ->)]];
    [done|].
  simpl. unfold store_flags. split_and!; try done.
  - intros q Hq. by rewrite lookup_insert_ne.
  - intros q. destruct (decide (PT_REGS_PARM2 regs = q)) as [<-|Hq].
    + by rewrite lookup_insert_eq, Hm.
    + by rewrite lookup_insert_ne.
  - rewrite dom_insert_L. apply elem_of_dom_2 in Hm.
    apply set_eq. intros q. rewrite elem_of_union, elem_of_singleton.
    split; [intros [->|]; done|by right].
Qed.

Lemma canonical_entry_frame_witness :
  (0 : Z) = 0 ∧
  Canonical.ksu_mount_propagation_paused
    (Canonical.Kernel 1 {[ 100 := Mount 0x31 None; 300 := Mount 0x1000 None ]})
  = 1.
Proof.
  refine (let H := canonical_entry_frame
              (Canonical.Kernel 1
                 {[ 100 := Mount 0x1031 None; 300 := Mount 0x1000 None ]})
              (AttachState 0 0 false) (PtRegs 200 100) 0
              (AttachState 100 0x1031 true)
              (Canonical.Kernel 1
                 {[ 100 := Mount 0x31 None; 300 := Mount 0x1000 None ]})
              _ in conj (proj1 H) (proj1 (proj2 H))).
  vm_compute. reflexivity.
Defined.

(** X4.  When nothing else writes the destination's flags between the
    two handlers, the return handler undoes the entry handler exactly:
    the whole kernel state is the one the entry handler started from. *)
Theorem canonical_entry_then_ret_is_identity
    (k : Canonical.kernel) (st : ksu_attach_mnt_state) (regs : pt_regs)
    (r : Z) (st' : ksu_attach_mnt_state) (k' : Canonical.kernel) :
  Canonical.ksu_attach_recursive_mnt_entry k st regs = Some (r, st', k') →
  Canonical.ksu_attach_recursive_mnt_ret k' st' = Some (0, k).
Proof.
  intros He.
  apply canonical_entry_cases in He
    as [-> [[-> ->]|(m & Hp & [Hd Hm]%deref_Some & Hsh & -> & ->)]].
  - by apply canonical_ret_not_spoofed.
  - unfold Canonical.ksu_attach_recursive_mnt_ret, deref, store_flags.
    simpl. case_decide; [done|]. rewrite lookup_insert_eq. simpl.
    rewrite insert_insert_eq. destruct m as [f d]. simpl.
    rewrite insert_id by done. by destruct k.
Qed.

Lemma canonical_entry_then_ret_is_identity_witness :
  Canonical.ksu_attach_recursive_mnt_ret
    (Canonical.Kernel 1 {[ 100 := Mount 0x31 (Some "tmpfs") ]})
    (AttachState 100 0x1031 true)
  = Some (0, Canonical.Kernel 1 {[ 100 := Mount 0x1031 (Some "tmpfs") ]}).
Proof.
  exact (canonical_entry_then_ret_is_identity
           (Canonical.Kernel 1 {[ 100 := Mount 0x1031 (Some "tmpfs") ]})
           (AttachState 0 0 false) (PtRegs 200 100) 0
           (AttachState 100 0x1031 true)
           (Canonical.Kernel 1 {[ 100 := Mount 0x31 (Some "tmpfs") ]})
           eq_refl).
Defined.



(** X6.  How the control surface and the entry handler compose.  After
    [ksu_pause_mount_propagation (false)] the next entry handler does
    nothing, whatever the flag held before and whatever the arguments;
    after [ksu_pause_mount_propagation (true)] the next entry handler
    spoofs every shared destination; and of two consecutive settings
    only the last counts. *)
Theorem pause_switch_governs_next_entry :
  (∀ k st regs,
     Canonical.ksu_attach_recursive_mnt_entry
       (Canonical.ksu_pause_mount_propagation false k) st regs
     = Some (0, set_spoofed false st,
             Canonical.ksu_pause_mount_propagation false k)) ∧
  (∀ k st regs m,
     deref (Canonical.mounts k) (PT_REGS_PARM2 regs) = Some m →
     is_shared (mnt_flags m) = true →
     ∃ k',
       Canonical.ksu_attach_recursive_mnt_entry
         (Canonical.ksu_pause_mount_propagation true k) st regs
       = Some (0, AttachState (PT_REGS_PARM2 regs) (mnt_flags m) true, k') ∧
       Canonical.flags_at k' (PT_REGS_PARM2 regs)
       = Some (clear_shared (mnt_flags m))) ∧
  (∀ b b' k,
     Canonical.ksu_pause_mount_propagation b
       (Canonical.ksu_pause_mount_propagation b' k)
     = Canonical.ksu_pause_mount_propagation b k).
Proof.
  split_and!.
  - done.
  - intros k st regs m Hm Hsh.
    pose proof Hm as [Hd _]%deref_Some.
    unfold Canonical.ksu_attach_recursive_mnt_entry. simpl.
    apply Z.eqb_neq in Hd as ->. rewrite Hm. simpl. rewrite Hsh. simpl.
    eexists. split; [done|].
    unfold Canonical.flags_at. simpl. by rewrite lookup_store_flags.
  - by intros [] [] k.
Qed.

Lemma pause_switch_governs_next_entry_witness :
  ∃ k',
    Canonical.ksu_attach_recursive_mnt_entry
      (Canonical.ksu_pause_mount_propagation true
         (Canonical.Kernel 0 {[ 100 := Mount 0x1031 None ]}))
      (AttachState 0 0 false) (PtRegs 200 100)
    = Some (0, AttachState 100 0x1031 true, k') ∧
    Canonical.flags_at k' 100 = Some (clear_shared 0x1031).
Proof.
  exact (proj1 (proj2 pause_switch_governs_next_entry)
           (Canonical.Kernel 0 {[ 100 := Mount 0x1031 None ]})
           (AttachState 0 0 false) (PtRegs 200 100) (Mount 0x1031 None)
           eq_refl eq_refl).
Defined.

(** X7.  The handlers stay within the C type of the flags: if every
    mount's flags word is an [int] before the entry handler, every
    mount's flags word is an [int] after it and so is the word it saved;
    and the return handler, writing back a saved [int], keeps that. *)
Theorem canonical_handlers_keep_int_flags
    (k : Canonical.kernel) (st : ksu_attach_mnt_state) (regs : pt_regs)
    (r : Z) (st' : ksu_attach_mnt_state) (k' : Canonical.kernel) :
  Canonical.ksu_attach_recursive_mnt_entry k st regs = Some (r, st', k') →
  int_flags (Canonical.mounts k) →
  int_flags (Canonical.mounts k') ∧
  (spoofed st' = true → int_range (original_flags st')) ∧
  (∀ k2 r2 k3,
     int_flags (Canonical.mounts k2) →
     Canonical.ksu_attach_recursive_mnt_ret k2 st' = Some (r2, k3) →
     int_flags (Canonical.mounts k3)).
Proof.
  intros He Hint.
  assert (Hsaved : spoofed st' = true → int_range (original_flags st')).
  { apply canonical_entry_cases in He
      as [_ [[-> _]|(m & _ & [_ Hm]%deref_Some & _ & -> & _)]]; [done|].
    intros _. simpl. by eapply Hint. }
  split_and!; [|done|].
  - apply canonical_entry_cases in He
      as [_ [[_ ->]|(m & _ & [_ Hm]%deref_Some & _ & _ & ->)]]; [done|].
    simpl. unfold store_flags. intros p mp.
    destruct (decide (PT_REGS_PARM2 regs = p)) as [<-|Hp].
    + rewrite lookup_insert_eq. intros [= <-]. simpl.
      apply clear_shared_int_range. by eapply Hint.
    + rewrite lookup_insert_ne by done. apply Hint.
  - intros k2 r2 k3 Hint2. unfold Canonical.ksu_attach_recursive_mnt_ret.
    destruct (spoofed st') eqn:Hs; simpl; [|by intros [= _ <-]].
    destruct (deref _ _) as [m|]; simpl; [|done].
    intros [= _ <-]. simpl. unfold store_flags. intros p mp.
    destruct (decide (dest_mnt st' = p)) as [<-|Hp].
    + rewrite lookup_insert_eq. intros [= <-]. simpl. by apply Hsaved.
    + rewrite lookup_insert_ne by done. apply Hint2.
Qed.

Lemma canonical_handlers_keep_int_flags_witness :
  int_flags {[ 100 := Mount 0x31 None ]} ∧
  (true = true → int_range 0x1031).
Proof.
  refine (let H := canonical_handlers_keep_int_flags
              (Canonical.Kernel 1 {[ 100 := Mount 0x1031 None ]})
              (AttachState 0 0 false) (PtRegs 200 100) 0
              (AttachState 100 0x1031 true)
              (Canonical.Kernel 1 {[ 100 := Mount 0x31 None ]})
              eq_refl _ in conj (proj1 H) (proj1 (proj2 H))).
  intros p m Hm. simpl in Hm. apply lookup_singleton_Some in Hm as [_ <-].
  unfold int_range. simpl. lia.
Defined.

(** ** The current revision, many calls *)

Lemma step_keeps_instances_mounted s e s' :
  Canonical.step s e = Some s' →
  instances_mounted s → instances_mounted s'.
Proof.
  intros Hstep Hinv j stj Hj Hs.
  assert (Hold : Canonical.instances s !! j = Some stj →
                 is_Some (deref (Canonical.mounts (Canonical.sys_kernel s'))
                            (dest_mnt stj))).
  { intros Hj0. eapply step_keeps_mounted; [done|]. by eapply Hinv. }
  destruct e as [i stale regs|regs|i|pause|p f]; simpl in Hstep.
  - destruct (Canonical.instances s !! i) eqn:Hfree; [done|].
    case_decide; [|done].
    destruct (Canonical.ksu_attach_recursive_mnt_entry _ _ _)
      as [[[r st] k]|] eqn:He; simpl in Hstep; [|done].
    apply canonical_entry_cases in He as [-> He].
    injection Hstep as <-. simpl in *.
    destruct (decide (i = j)) as [->|Hne].
    + rewrite lookup_insert_eq in Hj. injection Hj as ->.
      destruct He as [[-> _]|(m & _ & Hm & _ & -> & ->)]; [done|].
      simpl. apply deref_store_flags. eauto.
    + rewrite lookup_insert_ne in Hj by done. auto.
  - case_decide; [done|]. injection Hstep as <-. auto.
  - destruct (Canonical.instances s !! i) as [st|]; simpl in Hstep; [|done].
    destruct (Canonical.ksu_attach_recursive_mnt_ret _ _)
      as [[r k]|]; simpl in Hstep; [|done].
    injection Hstep as <-. simpl in *.
    apply lookup_delete_Some in Hj as [_ Hj]. auto.
  - injection Hstep as <-. auto.
  - destruct (deref _ p); simpl in Hstep; [|done].
    injection Hstep as <-. auto.
Qed.

Lemma run_keeps_instances_mounted es : ∀ s s',
  Canonical.run s es = Some s' →
  instances_mounted s → instances_mounted s'.
Proof.
  induction es as [|e es IH]; intros s s'; simpl.
  - by intros [= <-].
  - destruct (Canonical.step s e) as [s1|] eqn:Hs; simpl; [|done].
    intros Hrun Hinv. eapply IH; [done|].
    by eapply step_keeps_instances_mounted.
Qed.

(** X8.  The restoration cannot fail.  Start with no call in flight and
    let any events happen, writes to mount flags by other code
    included.  Then for every call in flight, spoofed or not, the return
    handler can run and runs without a fault, and it frees the call's
    instance. *)
Theorem return_handler_never_faults
    (s : Canonical.system) (es : list Canonical.event)
    (s' : Canonical.system) (i : nat) (st : ksu_attach_mnt_state) :
  Canonical.instances s = ∅ →
  Canonical.run s es = Some s' →
  Canonical.instances s' !! i = Some st →
  ∃ k4,
    Canonical.ksu_attach_recursive_mnt_ret (Canonical.sys_kernel s') st
      = Some (0, k4) ∧
    Canonical.step s' (Canonical.EvRet i)
      = Some (Canonical.System k4 (delete i (Canonical.instances s'))
                (Canonical.nmissed s')).
Proof.
  intros Hempty Hrun Hi.
  assert (Hinv : instances_mounted s').
  { eapply run_keeps_instances_mounted; [done|].
    intros j stj Hj. by rewrite Hempty, lookup_empty in Hj. }
  assert (∃ k4, Canonical.ksu_attach_recursive_mnt_ret
                  (Canonical.sys_kernel s') st = Some (0, k4))
    as [k4 Hret].
  { destruct (spoofed st) eqn:Hs.
    - destruct (canonical_ret_restores (Canonical.sys_kernel s') st)
        as (k4 & Hret & _); [done|by eapply Hinv|]. by exists k4.
    - exists (Canonical.sys_kernel s'). by apply canonical_ret_not_spoofed. }
  exists k4. split; [done|]. simpl. rewrite Hi. simpl. by rewrite Hret.
Qed.

Lemma return_handler_never_faults_witness :
  let st := AttachState 100 0x1031 true in
  let s' := Canonical.System
              (Canonical.Kernel 0 {[ 100 := Mount 0x77 None ]})
              {[ 0%nat := st ]} 0 in
  ∃ k4,
    Canonical.ksu_attach_recursive_mnt_ret (Canonical.sys_kernel s') st
      = Some (0, k4) ∧
    Canonical.step s' (Canonical.EvRet 0)
      = Some (Canonical.System k4 (delete 0%nat (Canonical.instances s'))
                (Canonical.nmissed s')).
Proof.
  intros st s'.
  apply (return_handler_never_faults
           (Canonical.System
              (Canonical.Kernel 1 {[ 100 := Mount 0x1031 None ]}) ∅ 0)
           [Canonical.EvEntry 0 (AttachState 0 0 false) (PtRegs 200 100);
            Canonical.EvWrite 100 0x77;
            Canonical.EvPause false]
           s' 0 st).
  - reflexivity.
  - vm_compute. reflexivity.
  - vm_compute. reflexivity.
Defined.








(** ** The bootstrap revision *)

Lemma strncpy_length (src : string) (n : nat) :
  (String.length (strncpy src n) <= n)%nat.
Proof.
  revert src. induction n as [|n IH]; intros [|c src]; simpl; try lia.
  specialize (IH src). lia.
Qed.

Lemma strncpy_long (src : string) (n : nat) :
  (n < String.length src)%nat → strncpy src n ≠ src.
Proof.
  intros Hlen Heq. pose proof (strncpy_length src n) as Hle.
  rewrite Heq in Hle. lia.
Qed.

Lemma string_app_inv_head (p a b : string) :
  (p +:+ a)%string = (p +:+ b)%string → a = b.
Proof.
  induction p as [|c p IH]; simpl; [done|]. intros [= H]. by apply IH.
Qed.

Lemma strncpy_loop_prefix (rest : string) :
  strncpy ("/dev/block/loop" +:+ rest) 255
  = ("/dev/block/loop" +:+ strncpy rest 240)%string.
Proof. reflexivity. Qed.

(** The capture step, when no name has been captured yet and the source
    is a mount. *)
Lemma capture_devname_fresh source k src :
  Bootstrap.ksu_modules_devname_initialized k = 0 →
  deref (Bootstrap.mounts k) source = Some src →
  Bootstrap.capture_devname source k
  = Some (match mnt_devname src with
          | Some name =>
              if strncmp name "/dev/block/loop" 15 =? 0
              then Bootstrap.Kernel (Bootstrap.ksu_zygote_started k) 1
                     (strncpy name 255) (Bootstrap.mounts k)
              else k
          | None => k
          end).
Proof.
  intros Hi Hsrc. unfold Bootstrap.capture_devname.
  rewrite Hi, Hsrc. simpl.
  destruct (mnt_devname src) as [name|]; [|done].
  by destruct (_ =? 0).
Qed.

(** The control state after the entry handler is the one the capture
    step left. *)
Lemma bootstrap_entry_control k st regs r st' k' :
  Bootstrap.ksu_attach_recursive_mnt_entry k st regs = Some (r, st', k') →
  PT_REGS_PARM1 regs ≠ NULL → PT_REGS_PARM2 regs ≠ NULL →
  ∃ k1, Bootstrap.capture_devname (PT_REGS_PARM1 regs) k = Some k1 ∧
        Bootstrap.ksu_zygote_started k' = Bootstrap.ksu_zygote_started k1 ∧
        Bootstrap.ksu_modules_devname_initialized k'
          = Bootstrap.ksu_modules_devname_initialized k1 ∧
        Bootstrap.ksu_modules_devname k' = Bootstrap.ksu_modules_devname k1.
Proof.
  intros He Hs Hd.
  apply bootstrap_entry_cases in He
    as [_ [([?|?] & _)|(k1 & _ & _ & Hcap & He)]]; [done..|].
  exists k1. split; [done|].
  by destruct He as [[_ ->]|(m & _ & _ & _ & _ & ->)].
Qed.

(** X10.  Capture of the modules device name.  While no name has been
    captured, an invocation with two non-null references whose source
    is a mount captures a name exactly when the source's device name is
    non-null and starts with ["/dev/block/loop"]; the captured text is
    the first 255 characters of that name, hence the name itself when
    it is no longer than that; otherwise the buffer is left as it
    was. *)
Theorem bootstrap_capture_rule
    (k : Bootstrap.kernel) (st : ksu_attach_mnt_state) (regs : pt_regs)
    (src : mount) (r : Z) (st' : ksu_attach_mnt_state)
    (k' : Bootstrap.kernel) :
  Bootstrap.ksu_modules_devname_initialized k = 0 →
  PT_REGS_PARM1 regs ≠ NULL → PT_REGS_PARM2 regs ≠ NULL →
  deref (Bootstrap.mounts k) (PT_REGS_PARM1 regs) = Some src →
  Bootstrap.ksu_attach_recursive_mnt_entry k st regs = Some (r, st', k') →
  (Bootstrap.ksu_modules_devname_initialized k' ≠ 0 ↔
   ∃ rest, mnt_devname src = Some ("/dev/block/loop" +:+ rest)%string) ∧
  (∀ name, mnt_devname src = Some name →
     Bootstrap.ksu_modules_devname_initialized k' ≠ 0 →
     Bootstrap.ksu_modules_devname_initialized k' = 1 ∧
     Bootstrap.ksu_modules_devname k' = strncpy name 255 ∧
     ((String.length name <= 255)%nat →
      Bootstrap.ksu_modules_devname k' = name)) ∧
  (Bootstrap.ksu_modules_devname_initialized k' = 0 →
   Bootstrap.ksu_modules_devname k' = Bootstrap.ksu_modules_devname k).
Proof.
  intros Hi Hs Hd Hsrc He.
  destruct (bootstrap_entry_control _ _ _ _ _ _ He Hs Hd)
    as (k1 & Hcap & _ & -> & ->).
  rewrite (capture_devname_fresh _ _ src) in Hcap by done.
  destruct (mnt_devname src) as [name|] eqn:Hname; [|injection Hcap as <-].
  - remember (strncmp name "/dev/block/loop" 15) as c eqn:Hc in Hcap.
    remember (strncpy name 255) as cap eqn:Hcapname in Hcap.
    symmetry in Hc.
    destruct (Z.eqb_spec c 0) as [Hpre|Hpre]; injection Hcap as <-; subst c.
    + cbn [Bootstrap.ksu_modules_devname_initialized
             Bootstrap.ksu_modules_devname]. split_and!.
      * split; [|intros _; discriminate]. intros _.
        apply strncmp_loop_prefix in Hpre as [rest ->]. by exists rest.
      * intros ? [= <-] _. split_and!; [done..|].
        intros Hlen. rewrite Hcapname. by apply strncpy_short.
      * done.
    + split_and!.
      * rewrite Hi. split; [done|]. intros [rest [= ->]].
        destruct Hpre. apply strncmp_loop_prefix. by exists rest.
      * intros ? _ Hne. by rewrite Hi in Hne.
      * done.
  - split_and!.
    + rewrite Hi. split; [done|]. by intros [rest ?].
    + done.
    + done.
Qed.

Lemma bootstrap_capture_rule_witness :
  Bootstrap.ksu_modules_devname_initialized
    (Bootstrap.Kernel 0 1 "/dev/block/loop7"
       {[ 200 := Mount 0 (Some "/dev/block/loop7");
          100 := Mount 0x1031 None ]}) = 1 ∧
  Bootstrap.ksu_modules_devname
    (Bootstrap.Kernel 0 1 "/dev/block/loop7"
       {[ 200 := Mount 0 (Some "/dev/block/loop7");
          100 := Mount 0x1031 None ]}) = strncpy "/dev/block/loop7" 255.
Proof.
  refine (let H := proj1 (proj2 (bootstrap_capture_rule
              (Bootstrap.Kernel 0 0 ""
                 {[ 200 := Mount 0 (Some "/dev/block/loop7");
                    100 := Mount 0x1031 None ]})
              (AttachState 0 0 false) (PtRegs 200 200) 
              (Mount 0 (Some "/dev/block/loop7")) 0
              (AttachState 0 0 false)
              (Bootstrap.Kernel 0 1 "/dev/block/loop7"
                 {[ 200 := Mount 0 (Some "/dev/block/loop7");
                    100 := Mount 0x1031 None ]})
              eq_refl _ _ _ _)) "/dev/block/loop7"%string eq_refl _
          in conj (proj1 H) (proj1 (proj2 H))).
  - simpl. discriminate.
  - simpl. discriminate.
  - vm_compute. reflexivity.
  - vm_compute. reflexivity.
  - simpl. discriminate.
Defined.

(** X11.  The control state is a latch as far as the handlers go: the
    entry handler never changes [ksu_zygote_started], never takes a
    captured name back, and once a name has been captured never changes
    it; [ksu_set_zygote_started] sets the latch, touches nothing else,
    and calling it again changes nothing. *)
Theorem bootstrap_control_state_is_latched :
  (∀ k st regs r st' k',
     Bootstrap.ksu_attach_recursive_mnt_entry k st regs = Some (r, st', k') →
     Bootstrap.ksu_zygote_started k' = Bootstrap.ksu_zygote_started k ∧
     (Bootstrap.ksu_modules_devname_initialized k ≠ 0 →
      Bootstrap.ksu_modules_devname_initialized k'
        = Bootstrap.ksu_modules_devname_initialized k ∧
      Bootstrap.ksu_modules_devname k' = Bootstrap.ksu_modules_devname k)) ∧
  (∀ k,
     Bootstrap.ksu_zygote_started (Bootstrap.ksu_set_zygote_started k) ≠ 0 ∧
     Bootstrap.ksu_modules_devname_initialized
       (Bootstrap.ksu_set_zygote_started k)
       = Bootstrap.ksu_modules_devname_initialized k ∧
     Bootstrap.ksu_modules_devname (Bootstrap.ksu_set_zygote_started k)
       = Bootstrap.ksu_modules_devname k ∧
     Bootstrap.mounts (Bootstrap.ksu_set_zygote_started k)
       = Bootstrap.mounts k ∧
     Bootstrap.ksu_set_zygote_started (Bootstrap.ksu_set_zygote_started k)
       = Bootstrap.ksu_set_zygote_started k).
Proof.
  split; [|done].
  intros k st regs r st' k' He.
  apply bootstrap_entry_cases in He
    as [_ [(_ & _ & ->)|(k1 & _ & _ & Hcap & He)]]; [done|].
  pose proof (capture_devname_keeps _ _ _ Hcap) as [_ Hz].
  assert (Bootstrap.ksu_zygote_started k' = Bootstrap.ksu_zygote_started k1 ∧
          Bootstrap.ksu_modules_devname_initialized k'
            = Bootstrap.ksu_modules_devname_initialized k1 ∧
          Bootstrap.ksu_modules_devname k' = Bootstrap.ksu_modules_devname k1)
    as (-> & -> & ->)
    by (by destruct He as [[_ ->]|(m & _ & _ & _ & _ & ->)]).
  split; [done|]. intros Hi.
  rewrite capture_devname_frozen in Hcap by done. by injection Hcap as <-.
Qed.

Lemma bootstrap_control_state_is_latched_witness :
  Bootstrap.ksu_modules_devname_initialized
    (Bootstrap.Kernel 1 1 "/dev/block/loop7"
       {[ 200 := Mount 0 (Some "/dev/block/loop9") ]}) = 1 ∧
  Bootstrap.ksu_modules_devname
    (Bootstrap.Kernel 1 1 "/dev/block/loop7"
       {[ 200 := Mount 0 (Some "/dev/block/loop9") ]})
  = "/dev/block/loop7"%string.
Proof.
  refine (proj2 (proj1 bootstrap_control_state_is_latched
            (Bootstrap.Kernel 1 1 "/dev/block/loop7"
               {[ 200 := Mount 0 (Some "/dev/block/loop9") ]})
            (AttachState 0 0 true) (PtRegs 200 200) 0
            (AttachState 0 0 false)
            (Bootstrap.Kernel 1 1 "/dev/block/loop7"
               {[ 200 := Mount 0 (Some "/dev/block/loop9") ]})
            _) _).
  - vm_compute. reflexivity.
  - simpl. discriminate.
Defined.

(** X12.  The captured name is always a loop-device path that fits the
    buffer: if that holds before the entry handler (as it does while no
    name has been captured) it holds after it, whichever device the
    call comes from, and [ksu_set_zygote_started] keeps it too. *)
Theorem bootstrap_captured_name_well_formed :
  (∀ k, Bootstrap.ksu_modules_devname_initialized k = 0 → devname_wf k) ∧
  (∀ k st regs r st' k',
     Bootstrap.ksu_attach_recursive_mnt_entry k st regs = Some (r, st', k') →
     devname_wf k → devname_wf k') ∧
  (∀ k, devname_wf k → devname_wf (Bootstrap.ksu_set_zygote_started k)).
Proof.
  split_and!; [by intros k Hi Hne| |done].
  intros k st regs r st' k' He Hwf.
  apply bootstrap_entry_cases in He
    as [_ [(_ & _ & ->)|(k1 & _ & _ & Hcap & He)]]; [done|].
  assert (Hwf1 : devname_wf k1).
  { destruct (Z.eq_dec (Bootstrap.ksu_modules_devname_initialized k) 0)
      as [Hi|Hi].
    2:{ rewrite capture_devname_frozen in Hcap by done.
        by injection Hcap as <-. }
    destruct (deref (Bootstrap.mounts k) (PT_REGS_PARM1 regs))
      as [src|] eqn:Hsrc.
    2:{ unfold Bootstrap.capture_devname in Hcap.
        by rewrite Hi, Hsrc in Hcap. }
    rewrite (capture_devname_fresh _ _ src) in Hcap by done.
    destruct (mnt_devname src) as [name|] eqn:Hname;
      [|by injection Hcap as <-].
    remember (strncmp name "/dev/block/loop" 15) as c eqn:Hc in Hcap.
    remember (strncpy name 255) as cap eqn:Hcapname in Hcap.
    symmetry in Hc.
    destruct (Z.eqb_spec c 0) as [Hpre|Hpre]; injection Hcap as <-;
      [|done].
    subst c. apply strncmp_loop_prefix in Hpre as [rest ->].
    intros _. cbn [Bootstrap.ksu_modules_devname]. subst cap. split.
    - rewrite strncpy_loop_prefix. eauto.
    - apply strncpy_length. }
  by destruct He as [[_ ->]|(m & _ & _ & _ & _ & ->)].
Qed.

Lemma bootstrap_captured_name_well_formed_witness :
  devname_wf
    (Bootstrap.Kernel 0 1 "/dev/block/loop7"
       {[ 200 := Mount 0 (Some "/dev/block/loop7") ]}).
Proof.
  refine (proj1 (proj2 bootstrap_captured_name_well_formed)
            (Bootstrap.Kernel 0 0 ""
               {[ 200 := Mount 0 (Some "/dev/block/loop7") ]})
            (AttachState 0 0 true) (PtRegs 200 200) 0
            (AttachState 0 0 false)
            (Bootstrap.Kernel 0 1 "/dev/block/loop7"
               {[ 200 := Mount 0 (Some "/dev/block/loop7") ]})
            _ _).
  - vm_compute. reflexivity.
  - intros Hne. simpl in Hne. done.
Defined.

(** X13.  Before the bootstrap signal every call is in scope: with the
    latch not set, any call with two non-null references whose
    destination is a shared mount is spoofed, whatever the source's
    device name and whatever name has or has not been captured (the
    source is only read while no name has been captured). *)
Theorem bootstrap_all_in_scope_before_latch
    (k : Bootstrap.kernel) (st : ksu_attach_mnt_state) (regs : pt_regs)
    (m : mount) :
  Bootstrap.ksu_zygote_started k = 0 →
  PT_REGS_PARM1 regs ≠ NULL →
  Bootstrap.ksu_modules_devname_initialized k ≠ 0 ∨
    is_Some (deref (Bootstrap.mounts k) (PT_REGS_PARM1 regs)) →
  deref (Bootstrap.mounts k) (PT_REGS_PARM2 regs) = Some m →
  is_shared (mnt_flags m) = true →
  ∃ k',
    Bootstrap.ksu_attach_recursive_mnt_entry k st regs
      = Some (0, AttachState (PT_REGS_PARM2 regs) (mnt_flags m) true, k') ∧
    Bootstrap.flags_at k' (PT_REGS_PARM2 regs)
      = Some (clear_shared (mnt_flags m)).
Proof.
  intros Hz Hs Hsrc Hm Hsh.
  pose proof Hm as [Hd _]%deref_Some.
  assert (∃ k1, Bootstrap.capture_devname (PT_REGS_PARM1 regs) k = Some k1)
    as [k1 Hcap].
  { destruct Hsrc as [Hi|[src Hsrc]].
    - exists k. by apply capture_devname_frozen.
    - destruct (Z.eq_dec (Bootstrap.ksu_modules_devname_initialized k) 0)
        as [Hi|Hi].
      + rewrite (capture_devname_fresh _ _ src) by done. eauto.
      + exists k. by apply capture_devname_frozen. }
  pose proof (capture_devname_keeps _ _ _ Hcap) as [Hmounts Hz1].
  unfold Bootstrap.ksu_attach_recursive_mnt_entry.
  apply Z.eqb_neq in Hs as ->. apply Z.eqb_neq in Hd as ->.
  rewrite Hcap. simpl. unfold Bootstrap.skip_spoof.
  rewrite Hz1, Hz. simpl. rewrite Hmounts, Hm. simpl. rewrite Hsh. simpl.
  eexists. split; [done|].
  unfold Bootstrap.flags_at. simpl. by rewrite lookup_store_flags.
Qed.

Lemma bootstrap_all_in_scope_before_latch_witness :
  let k := Bootstrap.Kernel 0 1 "/dev/block/loop7"
             {[ 200 := Mount 0 (Some "/dev/block/dm-3");
                100 := Mount 0x1031 None ]} in
  let regs := PtRegs 200 100 in
  let m := Mount 0x1031 None in
  ∃ k',
    Bootstrap.ksu_attach_recursive_mnt_entry k (AttachState 0 0 false) regs
      = Some (0, AttachState (PT_REGS_PARM2 regs) (mnt_flags m) true, k') ∧
    Bootstrap.flags_at k' (PT_REGS_PARM2 regs)
      = Some (clear_shared (mnt_flags m)).
Proof.
  intros k regs m.
  apply (bootstrap_all_in_scope_before_latch k (AttachState 0 0 false)
           regs m).
  - reflexivity.
  - simpl. discriminate.
  - left. simpl. discriminate.
  - vm_compute. reflexivity.
  - reflexivity.
Defined.

(** X14.  After the bootstrap signal, while no name has been captured,
    a call whose source is a mount with a null device name or a device
    name that does not start with ["/dev/block/loop"] is bypassed: the
    kernel is left exactly as it was and the destination is not even
    read (it need not be a mount). *)
Theorem bootstrap_latched_without_name_bypasses
    (k : Bootstrap.kernel) (st : ksu_attach_mnt_state) (regs : pt_regs)
    (src : mount) :
  Bootstrap.ksu_zygote_started k ≠ 0 →
  Bootstrap.ksu_modules_devname_initialized k = 0 →
  PT_REGS_PARM1 regs ≠ NULL → PT_REGS_PARM2 regs ≠ NULL →
  deref (Bootstrap.mounts k) (PT_REGS_PARM1 regs) = Some src →
  (∀ rest, mnt_devname src ≠ Some ("/dev/block/loop" +:+ rest)%string) →
  Bootstrap.ksu_attach_recursive_mnt_entry k st regs
    = Some (0, set_spoofed false st, k).
Proof.
  intros Hz Hi Hs Hd Hsrc Hnot.
  unfold Bootstrap.ksu_attach_recursive_mnt_entry.
  apply Z.eqb_neq in Hs as ->. apply Z.eqb_neq in Hd as ->.
  rewrite (capture_devname_fresh _ _ src) by done.
  assert (match mnt_devname src with
          | Some name =>
              if strncmp name "/dev/block/loop" 15 =? 0
              then Bootstrap.Kernel (Bootstrap.ksu_zygote_started k) 1
                     (strncpy name 255) (Bootstrap.mounts k)
              else k
          | None => k
          end = k) as ->.
  { destruct (mnt_devname src) as [name|] eqn:Hname; [|done].
    destruct (Z.eqb_spec (strncmp name "/dev/block/loop" 15) 0)
      as [Hpre|Hpre]; [|done].
    apply strncmp_loop_prefix in Hpre as [rest ->]. by destruct (Hnot rest). }
  simpl. unfold Bootstrap.skip_spoof. rewrite Hi.
  by apply Z.eqb_neq in Hz as ->.
Qed.

Lemma bootstrap_latched_without_name_bypasses_witness :
  let k := Bootstrap.Kernel 1 0 ""
             {[ 200 := Mount 0 (Some "/dev/block/dm-3") ]} in
  Bootstrap.ksu_attach_recursive_mnt_entry k (AttachState 5 6 true)
    (PtRegs 200 999)
  = Some (0, set_spoofed false (AttachState 5 6 true), k).
Proof.
  intros k.
  apply (bootstrap_latched_without_name_bypasses k (AttachState 5 6 true)
           (PtRegs 200 999) (Mount 0 (Some "/dev/block/dm-3"))).
  - simpl. discriminate.
  - reflexivity.
  - simpl. discriminate.
  - simpl. discriminate.
  - vm_compute. reflexivity.
  - intros rest. simpl. discriminate.
Defined.

(** X15.  The 255-character bound of the name buffer.  A source whose
    device name starts with ["/dev/block/loop"] but is longer than 255
    characters is captured truncated, so after the bootstrap signal that
    very device does not match the captured name: the call that
    captures it is bypassed, and so is every later call from it. *)
Theorem bootstrap_overlong_name_locks_itself_out
    (k : Bootstrap.kernel) (st : ksu_attach_mnt_state) (regs : pt_regs)
    (src : mount) (rest : string) :
  Bootstrap.ksu_zygote_started k ≠ 0 →
  Bootstrap.ksu_modules_devname_initialized k = 0 →
  PT_REGS_PARM1 regs ≠ NULL → PT_REGS_PARM2 regs ≠ NULL →
  deref (Bootstrap.mounts k) (PT_REGS_PARM1 regs) = Some src →
  mnt_devname src = Some ("/dev/block/loop" +:+ rest)%string →
  (240 < String.length rest)%nat →
  let k' := Bootstrap.Kernel (Bootstrap.ksu_zygote_started k) 1
              ("/dev/block/loop" +:+ strncpy rest 240)
              (Bootstrap.mounts k) in
  Bootstrap.ksu_attach_recursive_mnt_entry k st regs
    = Some (0, set_spoofed false st, k') ∧
  ∀ st2, Bootstrap.ksu_attach_recursive_mnt_entry k' st2 regs
         = Some (0, set_spoofed false st2, k').
Proof.
  intros Hz Hi Hs Hd Hsrc Hname Hlen k'.
  assert (Hskip : Bootstrap.skip_spoof (PT_REGS_PARM1 regs) k' = Some true).
  { unfold Bootstrap.skip_spoof, k'.
    cbn [Bootstrap.ksu_zygote_started Bootstrap.ksu_modules_devname_initialized
         Bootstrap.ksu_modules_devname Bootstrap.mounts].
    apply Z.eqb_neq in Hz as ->. change (1 =? 0) with false. cbv iota.
    rewrite Hsrc. cbn [mbind option_bind]. rewrite Hname.
    destruct (Z.eqb_spec
                (strcmp ("/dev/block/loop" +:+ rest)
                   ("/dev/block/loop" +:+ strncpy rest 240)) 0)
      as [Heq|]; [|done].
    apply strcmp_eq, string_app_inv_head in Heq.
    symmetry in Heq. by apply strncpy_long in Heq. }
  assert (Hcap : Bootstrap.capture_devname (PT_REGS_PARM1 regs) k = Some k').
  { rewrite (capture_devname_fresh _ _ src), Hname by done.
    assert (strncmp ("/dev/block/loop" +:+ rest) "/dev/block/loop" 15 = 0)
      as -> by (apply strncmp_loop_prefix; eauto).
    by rewrite strncpy_loop_prefix. }
  split.
  - unfold Bootstrap.ksu_attach_recursive_mnt_entry.
    apply Z.eqb_neq in Hs as ->. apply Z.eqb_neq in Hd as ->.
    rewrite Hcap. cbn [mbind option_bind orb]. by rewrite Hskip.
  - intros st2. unfold Bootstrap.ksu_attach_recursive_mnt_entry.
    apply Z.eqb_neq in Hs as ->. apply Z.eqb_neq in Hd as ->.
    rewrite capture_devname_frozen by done.
    cbn [mbind option_bind orb]. by rewrite Hskip.
Qed.

Lemma bootstrap_overlong_name_locks_itself_out_witness :
  let rest := Nat.iter 241 (λ s, ("a" +:+ s)%string) ""%string in
  let src := Mount 0 (Some ("/dev/block/loop" +:+ rest)%string) in
  let k := Bootstrap.Kernel 1 0 "" {[ 200 := src; 100 := Mount 0x1031 None ]} in
  let regs := PtRegs 200 100 in
  let st := AttachState 0 0 false in
  let k' := Bootstrap.Kernel (Bootstrap.ksu_zygote_started k) 1
              ("/dev/block/loop" +:+ strncpy rest 240)
              (Bootstrap.mounts k) in
  Bootstrap.ksu_attach_recursive_mnt_entry k st regs
    = Some (0, set_spoofed false st, k') ∧
  ∀ st2, Bootstrap.ksu_attach_recursive_mnt_entry k' st2 regs
         = Some (0, set_spoofed false st2, k').
Proof.
  intros rest src k regs st.
  apply (bootstrap_overlong_name_locks_itself_out k st regs src rest).
  - simpl. discriminate.
  - reflexivity.
  - simpl. discriminate.
  - simpl. discriminate.
  - vm_compute. reflexivity.
  - reflexivity.
  - apply Nat.ltb_lt. vm_compute. reflexivity.
Defined.

Lemma bootstrap_ret_restores k st :
  spoofed st = true →
  is_Some (deref (Bootstrap.mounts k) (dest_mnt st)) →
  ∃ k', Bootstrap.ksu_attach_recursive_mnt_ret k st = Some (0, k') ∧
        Bootstrap.flags_at k' (dest_mnt st) = Some (original_flags st).
Proof.
  intros Hs [m Hm]. unfold Bootstrap.ksu_attach_recursive_mnt_ret.
  rewrite Hs, Hm. simpl. eexists. split; [done|].
  unfold Bootstrap.flags_at. simpl. by rewrite lookup_store_flags.
Qed.

(** X16.  Round trip in the bootstrap revision.  If nothing else writes
    the destination between the two handlers, the return handler gives
    back the mounts the entry handler found and leaves the control
    state as the entry handler left it; and if the instance is spoofed,
    then on any later kernel in which the destination is still a mount
    the return handler writes back the destination's flags as they were
    before the entry handler. *)
Theorem bootstrap_entry_ret_round_trip
    (k : Bootstrap.kernel) (st : ksu_attach_mnt_state) (regs : pt_regs)
    (r : Z) (st' : ksu_attach_mnt_state) (k' : Bootstrap.kernel) :
  Bootstrap.ksu_attach_recursive_mnt_entry k st regs = Some (r, st', k') →
  (∃ k'',
     Bootstrap.ksu_attach_recursive_mnt_ret k' st' = Some (0, k'') ∧
     Bootstrap.mounts k'' = Bootstrap.mounts k ∧
     Bootstrap.ksu_zygote_started k'' = Bootstrap.ksu_zygote_started k' ∧
     Bootstrap.ksu_modules_devname_initialized k''
       = Bootstrap.ksu_modules_devname_initialized k' ∧
     Bootstrap.ksu_modules_devname k'' = Bootstrap.ksu_modules_devname k') ∧
  (spoofed st' = true →
   ∀ k2, is_Some (deref (Bootstrap.mounts k2) (PT_REGS_PARM2 regs)) →
     ∃ k3, Bootstrap.ksu_attach_recursive_mnt_ret k2 st' = Some (0, k3) ∧
           Bootstrap.flags_at k3 (PT_REGS_PARM2 regs)
             = Bootstrap.flags_at k (PT_REGS_PARM2 regs)).
Proof.
  intros He.
  apply bootstrap_entry_cases in He
    as [_ [(_ & -> & ->)|(k1 & _ & _ & Hcap & He)]].
  { split; [|done]. by exists k. }
  pose proof (capture_devname_keeps _ _ _ Hcap) as [Hmounts _].
  destruct He as [[-> ->]|(m & _ & [Hd Hm]%deref_Some & _ & -> & ->)].
  { split; [|done]. by exists k1. }
  split.
  - unfold Bootstrap.ksu_attach_recursive_mnt_ret, deref, store_flags.
    simpl. case_decide; [done|]. rewrite lookup_insert_eq. simpl.
    eexists. split; [done|]. simpl.
    rewrite insert_insert_eq. destruct m as [f d]. simpl.
    by rewrite insert_id.
  - intros _ k2 Hk2.
    destruct (bootstrap_ret_restores k2
                (AttachState (PT_REGS_PARM2 regs) (mnt_flags m) true))
      as (k3 & Hret & Hfl); [done..|].
    exists k3. split; [done|]. simpl in Hfl. rewrite Hfl.
    unfold Bootstrap.flags_at. by rewrite Hm.
Qed.

Lemma bootstrap_entry_ret_round_trip_witness :
  ∃ k'',
    Bootstrap.ksu_attach_recursive_mnt_ret
      (Bootstrap.Kernel 0 1 "/dev/block/loop7"
         {[ 200 := Mount 0 (Some "/dev/block/loop7");
            100 := Mount 0x31 None ]})
      (AttachState 100 0x1031 true) = Some (0, k'') ∧
    Bootstrap.mounts k''
    = Bootstrap.mounts
        (Bootstrap.Kernel 0 0 ""
           {[ 200 := Mount 0 (Some "/dev/block/loop7");
              100 := Mount 0x1031 None ]}).
Proof.
  refine (let H := proj1 (bootstrap_entry_ret_round_trip
              (Bootstrap.Kernel 0 0 ""
                 {[ 200 := Mount 0 (Some "/dev/block/loop7");
                    100 := Mount 0x1031 None ]})
              (AttachState 0 0 false) (PtRegs 200 100) 0
              (AttachState 100 0x1031 true)
              (Bootstrap.Kernel 0 1 "/dev/block/loop7"
                 {[ 200 := Mount 0 (Some "/dev/block/loop7");
                    100 := Mount 0x31 None ]})
              _) in
          match H with
          | ex_intro _ k'' (conj H1 (conj H2 _)) =>
              ex_intro _ k'' (conj H1 H2)
          end).
  vm_compute. reflexivity.
Defined.

(** ** The first revision *)

(** X17.  The first revision's entry handler faults exactly when the
    feature is active and the destination pointer it is handed is not a
    mount, the null pointer included (the current revision returns at
    once on a null destination). *)
Theorem legacy_entry_faults_iff
    (real : pt_regs → pt_regs) (k : Legacy.kernel)
    (st : ksu_attach_mnt_state) (regs : pt_regs) :
  Legacy.ksu_attach_recursive_mnt_entry real k st regs = None ↔
  Legacy.ksu_mount_propagation_paused k ≠ 0 ∧
  (PT_REGS_PARM2 (real regs) = NULL ∨
   Legacy.mounts k !! PT_REGS_PARM2 (real regs) = None).
Proof.
  unfold Legacy.ksu_attach_recursive_mnt_entry, deref.
  destruct (Z.eqb_spec (Legacy.ksu_mount_propagation_paused k) 0)
    as [Hp|Hp]; [split; [done|by intros [? _]]|].
  case_decide as Hd; [split; [auto|done]|].
  destruct (Legacy.mounts k !! PT_REGS_PARM2 (real regs)) as [m|]; simpl.
  - destruct (is_shared (mnt_flags m)); simpl;
      (split; [done|by intros [_ [?|?]]]).
  - split; [auto|done].
Qed.


